(** * ZendarSDK imaging viewers: a shallow embedding and its properties

    The development follows the two tools under [Tools/imaging_viewer]:
    - [imaging_viewer.py]      (module [ImagingViewer] below),
    - [point_cloud_viewer.py]  (module [PointCloudViewer] below).

    Python values are modelled as the code has them: integers as [Z],
    floating-point numbers as IEEE-754 binary64 ([PrimFloat.float], the
    representation of Python's [float] and of numpy's [float64]), strings
    as [string], exceptions as an error constructor threaded through a
    small trace-and-error monad, and the side effects on the display, on
    the video writer and on the plotting surface as an event trace. *)

From Stdlib Require Import ZArith List String Ascii Bool Lia ZifyBool.
From Stdlib Require Import Floats DecimalString DecimalPos DecimalN.
From Stdlib Require Import QArith Qround Qpower.
Import ListNotations.

Set Warnings "-inexact-float".
Set Implicit Arguments.

Local Close Scope Q_scope.
Local Open Scope string_scope.
Local Open Scope list_scope.
Local Open Scope Z_scope.

(** Python's [+] on strings. *)
Notation "a +++ b" := (String.append a b)
  (at level 60, right associativity).

(* ================================================================== *)
(** * Part I: definitions *)
(* ================================================================== *)

(** ** Python runtime fragments used by the tools *)

Module Py.

(** Exceptions that the modelled code paths can raise. *)
Inductive error : Type :=
| NameError (name : string)
| ValueError (msg : string)
| OverflowError (msg : string)
| TypeError (msg : string)
| AttributeError (name : string)
| SystemExit (msg : string)
| NotFoundError (path : string)
| CvArgumentError (msg : string).

(** The result of running a piece of Python: a value or a raised
    exception. *)
Inductive outcome (A : Type) : Type :=
| Ok (a : A)
| Raise (e : error).
Arguments Ok {A} a.
Arguments Raise {A} e.

Definition obind {A B} (m : outcome A) (f : A -> outcome B) : outcome B :=
  match m with
  | Ok a => f a
  | Raise e => Raise e
  end.

(** A loop whose body may raise: the accumulator is the mutated
    object. *)
Fixpoint ofold {A S} (body : S -> A -> outcome S) (xs : list A) (s : S)
  : outcome S :=
  match xs with
  | [] => Ok s
  | x :: rest => obind (body s x) (ofold body rest)
  end.

(** *** Name resolution

    A name used in a function body is looked up among the function's
    local names and then among the module's global names; a name bound
    in neither raises [NameError]. *)
Definition bound (names : list string) (x : string) : bool :=
  existsb (String.eqb x) names.

Definition resolve (locals globals : list string) (x : string)
  : outcome unit :=
  if bound locals x || bound globals x then Ok tt
  else Raise (NameError x).

(** *** Floats *)

(** [float(z)] for the (small) integer constants of the code. *)
Definition float_of_Z (z : Z) : float :=
  let a := PrimFloat.of_uint63 (Uint63.of_Z (Z.abs z)) in
  if z <? 0 then PrimFloat.opp a else a.

(** [int(f)]: truncation toward zero; [nan] raises [ValueError] and the
    infinities raise [OverflowError]. *)
Definition int_of_float (f : float) : outcome Z :=
  match Prim2SF f with
  | S754_zero _ => Ok 0
  | S754_finite s m e =>
      let a := if 0 <=? e then Z.pos m * 2 ^ e
               else Z.pos m / 2 ^ (- e) in
      Ok (if s then - a else a)
  | S754_infinity _ =>
      Raise (OverflowError "cannot convert float infinity to integer")
  | S754_nan => Raise (ValueError "cannot convert float NaN to integer")
  end.

(** *** String formatting *)

(** ["%d" % z] and [str(z)] for an integer [z]. *)
Definition format_d (z : Z) : string :=
  NilZero.string_of_int (Z.to_int z).

Definition digit_char (d : Z) : ascii :=
  ascii_of_nat (48 + Z.to_nat d).

(** Left padding with spaces up to a minimal field width. *)
Fixpoint spaces (n : nat) : string :=
  match n with
  | O => EmptyString
  | S n' => String " " (spaces n')
  end.

Definition pad_left (width : nat) (s : string) : string :=
  spaces (width - String.length s) +++ s.

(** The nearest integer to [num / den] ([den > 0]), ties to even: the
    rounding of the exact binary value that Python's float formatting
    performs. *)
Definition round_half_even (num den : Z) : Z :=
  let q := num / den in
  let r := num mod den in
  if 2 * r <? den then q
  else if den <? 2 * r then q + 1
  else if Z.even q then q else q + 1.

(** The magnitude of a finite float in hundredths, rounded. *)
Definition hundredths (m : positive) (e : Z) : Z :=
  if 0 <=? e then Z.pos m * 2 ^ e * 100
  else round_half_even (Z.pos m * 100) (2 ^ (- e)).

Definition fixed2 (negative : bool) (h : Z) : string :=
  (if negative then "-" else "") +++ format_d (h / 100) +++ "."
    +++ String (digit_char (h mod 100 / 10))
         (String (digit_char (h mod 10)) EmptyString).

(** ["%.2f" % f] before padding. *)
Definition format_prec2 (f : float) : string :=
  match Prim2SF f with
  | S754_zero s => fixed2 s 0
  | S754_finite s m e => fixed2 s (hundredths m e)
  | S754_infinity s => if s then "-inf" else "inf"
  | S754_nan => "nan"
  end.

(** ["%2.2f" % f]: precision 2, minimal field width 2. *)
Definition format_2_2f (f : float) : string :=
  pad_left 2 (format_prec2 f).

(** *** [os.path] (POSIX) *)

Definition starts_with_sep (s : string) : bool :=
  match s with
  | String c _ => Ascii.eqb c "/"
  | EmptyString => false
  end.

Fixpoint ends_with_sep (s : string) : bool :=
  match s with
  | EmptyString => false
  | String c EmptyString => Ascii.eqb c "/"
  | String _ rest => ends_with_sep rest
  end.

(** [os.path.join(a, b)]. *)
Definition join (a b : string) : string :=
  if starts_with_sep b then b
  else if (String.length a =? 0)%nat || ends_with_sep a then a +++ b
  else a +++ "/" +++ b.

End Py.

(** ** numpy and OpenCV fragments

    [uint8] rasters, [float64] point arrays and the filled-circle
    primitive. *)

Module Np.

(** One RGB pixel of a [uint8] raster. *)
Definition pixel : Type := (Z * Z * Z)%type.

(** An [H x W x 3] array of [uint8]: rows of pixels. *)
Definition image : Type := list (list pixel).

(** [np.zeros((h, w, 3), dtype=np.uint8)]. *)
Definition zeros (h w : Z) : image :=
  repeat (repeat (0, 0, 0) (Z.to_nat w)) (Z.to_nat h).

(** [im.shape] of an [H x W x 3] array. *)
Definition shape (im : image) : Z * Z * Z :=
  (Z.of_nat (List.length im), Z.of_nat (List.length (hd [] im)), 3).

(** Indexing [im[r, c]]. *)
Definition get (im : image) (r c : Z) : option pixel :=
  if (r <? 0) || (c <? 0) then None
  else match nth_error im (Z.to_nat r) with
       | Some row => nth_error row (Z.to_nat c)
       | None => None
       end.

(** One row of an [N x 3] array of [float64]. *)
Definition point : Type := (float * float * float)%type.

(** [np.array(pts)] for a non-empty list of 3-tuples of floats. *)
Definition array (pts : list point) : list point := pts.

(** The column views [a[:,0]] and [a[:,1]]. *)
Definition col0 (a : list point) : list float :=
  map (fun p : point => fst (fst p)) a.
Definition col1 (a : list point) : list float :=
  map (fun p : point => snd (fst p)) a.

(** Broadcast arithmetic of a vector with a scalar. *)
Definition sub_scalar (v : list float) (c : float) : list float :=
  map (fun x => PrimFloat.sub x c) v.
Definition div_scalar (v : list float) (c : float) : list float :=
  map (fun x => PrimFloat.div x c) v.

(** The column assignments [a[:,0] = v] and [a[:,1] = v], for [v] of the
    length of [a]. *)
Fixpoint set_col0 (a : list point) (v : list float) : list point :=
  match a, v with
  | (_, y, z) :: a', x :: v' => (x, y, z) :: set_col0 a' v'
  | _, _ => a
  end.
Fixpoint set_col1 (a : list point) (v : list float) : list point :=
  match a, v with
  | (x, _, z) :: a', y :: v' => (x, y, z) :: set_col1 a' v'
  | _, _ => a
  end.

End Np.

Module Cv2.
Import Py Np.

(** [ICV_HLINE(row, xl, xr, color)]: the pixels [xl .. xr] of a row take
    the colour. *)
Fixpoint hline_from (j : Z) (row : list pixel) (xl xr : Z) (color : pixel)
  : list pixel :=
  match row with
  | [] => []
  | p :: rest =>
      (if (xl <=? j) && (j <=? xr) then color else p)
        :: hline_from (j + 1) rest xl xr color
  end.

(** The same on row [y] of the image ([ptr + y * step]). *)
Fixpoint fill_from (i : Z) (img : image) (y xl xr : Z) (color : pixel)
  : image :=
  match img with
  | [] => []
  | row :: rest =>
      (if i =? y then hline_from 0 row xl xr color else row)
        :: fill_from (i + 1) rest y xl xr color
  end.

Definition fill (img : image) (y xl xr : Z) (color : pixel) : image :=
  fill_from 0 img y xl xr color.

(** [(unsigned)y < (unsigned)size.height]. *)
Definition in_rows (height y : Z) : bool := (0 <=? y) && (y <? height).

Definition fill_if (img : image) (height y xl xr : Z) (color : pixel)
  : image :=
  if in_rows height y then fill img y xl xr color else img.

(** The state of the midpoint scan of OpenCV's [Circle]. *)
Record scan : Type := { err : Z; dx : Z; dy : Z; plus : Z; minus : Z }.

(** One turn of the [while (dx >= dy)] loop of [Circle] with
    [fill = true]: four horizontal spans, clipped to the raster when
    the circle is not entirely inside. *)
Definition circle_spans (width height cx cy : Z) (inside : bool)
           (color : pixel) (st : scan) (img : image) : image :=
  let y11 := cy - dy st in
  let y12 := cy + dy st in
  let y21 := cy - dx st in
  let y22 := cy + dx st in
  let x11 := cx - dx st in
  let x12 := cx + dx st in
  let x21 := cx - dy st in
  let x22 := cx + dy st in
  if inside then
    let img := fill img y11 x11 x12 color in
    let img := fill img y12 x11 x12 color in
    let img := fill img y21 x21 x22 color in
    fill img y22 x21 x22 color
  else if (x11 <? width) && (0 <=? x12) && (y21 <? height) && (0 <=? y22)
  then
    let x11 := Z.max x11 0 in
    let x12 := Z.min x12 (width - 1) in
    let img := fill_if img height y11 x11 x12 color in
    let img := fill_if img height y12 x11 x12 color in
    if (x21 <? width) && (0 <=? x22) then
      let x21 := Z.max x21 0 in
      let x22 := Z.min x22 (width - 1) in
      let img := fill_if img height y21 x21 x22 color in
      fill_if img height y22 x21 x22 color
    else img
  else img.

(** The update of the scan state at the end of a turn. *)
Definition scan_next (st : scan) : scan :=
  let err' := err st + plus st in
  if err' <=? 0 then
    {| err := err'; dx := dx st; dy := dy st + 1;
       plus := plus st + 2; minus := minus st |}
  else
    {| err := err' - minus st; dx := dx st - 1; dy := dy st + 1;
       plus := plus st + 2; minus := minus st - 2 |}.

Fixpoint circle_loop (fuel : nat) (width height cx cy : Z) (inside : bool)
         (color : pixel) (st : scan) (img : image) : image :=
  match fuel with
  | O => img
  | S fuel' =>
      if dy st <=? dx st then
        circle_loop fuel' width height cx cy inside color (scan_next st)
          (circle_spans width height cx cy inside color st img)
      else img
  end.

(** OpenCV's [Circle(img, center, radius, color, fill = true)]. The loop
    runs while [dy <= dx <= radius] and [dy] grows at every turn, so
    [radius + 1] turns exhaust it. *)
Definition Circle (img : image) (cx cy radius : Z) (color : pixel) : image :=
  let height := Z.of_nat (List.length img) in
  let width := Z.of_nat (List.length (hd [] img)) in
  let inside := (radius <=? cx) && (cx <? width - radius)
                && (radius <=? cy) && (cy <? height - radius) in
  circle_loop (S (Z.to_nat radius)) width height cx cy inside color
    {| err := 0; dx := radius; dy := 0; plus := 1;
       minus := 2 * radius - 1 |} img.

(** A Python integer that fits a C [int]. *)
Definition fits_int (z : Z) : bool :=
  (- 2 ^ 31 <=? z) && (z <? 2 ^ 31).

(** [cv2.circle(img, center=(cx, cy), radius, color, thickness=-1)]: the
    binding converts the centre to C [int]s and refuses integers out of
    range; a negative thickness on the default line type fills the
    circle with [Circle]. The image is mutated in place: the result is
    the new content of [img]. *)
Definition circle (img : image) (center : Z * Z) (radius : Z)
           (color : pixel) : outcome image :=
  let (cx, cy) := center in
  if fits_int cx && fits_int cy then
    if 0 <=? radius then Ok (Circle img cx cy radius color)
    else Raise (CvArgumentError "radius")
  else Raise (CvArgumentError "center").

End Cv2.

(** ** The collaborators of the tools *)

(** Modelled from the spec: [radar_image_overlay] is a module of the
    repository that is not among the sources. Its [draw_timestamp] stamps
    a label string on a raster frame at a fixed screen position and its
    [draw_grid_line] draws distance markers around a centre; the model
    keeps the pixels of the frame together with the ordered list of what
    has been stamped on it. *)
Module RadarImageOverlay.

Inductive stamp : Type :=
| Label (text : string)
| GridLine (center : list float) (pixels_per_meter : float)
           (separation : Z).

Record frame : Type := { pixels : Np.image; stamps : list stamp }.

(** A raster frame as a renderer produces it: nothing stamped yet. *)
Definition bare (im : Np.image) : frame :=
  {| pixels := im; stamps := [] |}.

Definition draw_timestamp (im : frame) (text : string) : frame :=
  {| pixels := pixels im; stamps := stamps im ++ [Label text] |}.

Definition draw_grid_line (im : frame) (center : list float)
           (pixels_per_meter : float) (separation : Z) : frame :=
  {| pixels := pixels im;
     stamps := stamps im ++ [GridLine center pixels_per_meter separation] |}.

End RadarImageOverlay.

(** Modelled from the spec: [video_writer] is a module of the repository
    that is not among the sources. A [VideoWriter] object is kept by the
    arguments of its constructor. *)
Record VideoWriter : Type := {
  vw_path : option string;
  vw_width : Z;
  vw_height : Z;
  vw_frame_rate : Z;
  vw_quality_factor : Z
}.

(** ** Effects: the event trace *)

(** What the tools do to the outside world, in order:
    - [Imshow shape]: [fig.gca().imshow(np.zeros(shape, dtype=np.uint8))],
      the creation of the display artist;
    - [VideoWriterNew ...]: [VideoWriter(output_path, im_width, im_height,
      frame_rate, quality_factor)];
    - [VideoWrite im_rgb]: [video_writer(im_rgb)];
    - [SetData im_rgb]: [artist.set_data(im_rgb)], [fig.canvas.draw()] and
      [plt.pause(1e-4)];
    - [Print line]: [print(line)];
    - [Scatter xs ys]: [plt.scatter(xs, ys)];
    - [Show]: [plt.show()]. *)
Inductive event : Type :=
| Imshow (shape : Z * Z * Z)
| VideoWriterNew (output_path : option string)
                 (im_width im_height frame_rate quality_factor : Z)
| VideoWrite (im_rgb : RadarImageOverlay.frame)
| SetData (im_rgb : RadarImageOverlay.frame)
| Print (line : string)
| Scatter (xs ys : list float)
| Show.

(** A computation with effects: the events it performed and how it
    ended. *)
Definition M (A : Type) : Type := (list event * Py.outcome A)%type.

Definition ret {A} (a : A) : M A := ([], Py.Ok a).

Definition bind {A B} (m : M A) (f : A -> M B) : M B :=
  match m with
  | (t, Py.Ok a) => let (t', r) := f a in (t ++ t', r)
  | (t, Py.Raise e) => (t, Py.Raise e)
  end.

Definition emit (e : event) : M unit := ([e], Py.Ok tt).

Definition raise {A} (e : Py.error) : M A := ([], Py.Raise e).

Definition lift {A} (o : Py.outcome A) : M A := ([], o).

Definition trace {A} (m : M A) : list event := fst m.

Definition result {A} (m : M A) : Py.outcome A := snd m.

Notation "x <- m ;; k" := (bind m (fun x => k))
  (at level 61, m at next level, right associativity).
Notation "m ;;; k" := (bind m (fun _ => k))
  (at level 61, right associativity).

(** [for x in xs: s = body(s, x)], the loop variables kept in [s]. *)
Fixpoint for_each {A S} (xs : list A) (s : S) (body : S -> A -> M S) : M S :=
  match xs with
  | [] => ret s
  | x :: rest => s' <- body s x ;; for_each rest s' body
  end.

(** A generator, seen from its consumer: the items it yields, in order,
    and the exception that ends it when it does not end by exhaustion.
    The generators of the tools perform no event of their own. *)
Definition generator (A : Type) : Type := (list A * option Py.error)%type.

(** [for x in g: s = body(s, x)] over a generator. *)
Definition for_gen {A S} (g : generator A) (s : S) (body : S -> A -> M S)
  : M S :=
  s' <- for_each (fst g) s body ;;
  match snd g with
  | None => ret s'
  | Some e => raise e
  end.

(** ** The decoded records *)

(** Modelled from the spec: the classes [RadarImage] and [RadarPointCloud]
    and the reader [RadarDataStreamer] are modules of the repository that
    are not among the sources. The records carry the attributes that the
    tools read. *)
Section Records.

(** The image grid that [RadarImageStreamDisplay] colours. *)
Variable ImageData : Type.

Record ImageModel : Type := {
  di_norm : float;  (** [np.linalg.norm(image_model.di)] *)
  global_to_image : list float -> list float
}.

Record RadarImage : Type := {
  ri_frame_id : Z;
  ri_timestamp : float;
  ri_image : ImageData;
  extrinsic_position : list float;
  image_model : ImageModel
}.

Record RadarPointCloud : Type := {
  pc_frame_id : Z;
  pc_timestamp : float;
  point_cloud : list Np.point
}.

(** The object that travels with a raster frame: an image frame or a
    tracker state. *)
Inductive raw_data : Type :=
| RawImage (radar_image : RadarImage)
| RawPointCloud (pc : RadarPointCloud).

Definition timestamp_of (raw : raw_data) : float :=
  match raw with
  | RawImage r => ri_timestamp r
  | RawPointCloud p => pc_timestamp p
  end.

Definition frame_id_of (raw : raw_data) : Z :=
  match raw with
  | RawImage r => ri_frame_id r
  | RawPointCloud p => pc_frame_id p
  end.

(** Only an image frame has an extrinsic and a geometric model. *)
Definition geometry (raw : raw_data) : Py.outcome RadarImage :=
  match raw with
  | RawImage r => Py.Ok r
  | RawPointCloud _ => Py.Raise (Py.AttributeError "extrinsic")
  end.

(** The files of the data set: which paths exist, and the decoded
    records of the stream stored at a path. *)
Record world : Type := {
  file_exists : string -> bool;
  images_at : string -> list RadarImage;
  points_at : string -> list RadarPointCloud
}.

(** [os.path.exists]. *)
Definition exists_ (w : world) (path : string) : bool := file_exists w path.

(** Entering [RadarDataStreamer(path, schema, cls)] fails with
    [NotFoundError] when the path does not exist; otherwise the
    streamer iterates over the decoded records of the file. *)
Definition RadarDataStreamer {R} (w : world) (content : world -> string -> list R)
           (path : string) : Py.outcome (list R) :=
  if file_exists w path then Py.Ok (content w path)
  else Py.Raise (Py.NotFoundError path).

End Records.

Arguments RawPointCloud {ImageData} pc.
Arguments RawImage {ImageData} radar_image.

(** ** [imaging_viewer.py] *)

Module ImagingViewer.
Import Py Np RadarImageOverlay.

(** The names bound at module level: the imports, [IOPath] and the four
    functions. *)
Definition globals : list string :=
  ["sys"; "join"; "exists"; "ExitStack"; "argparse"; "np"; "namedtuple";
   "plt"; "cv2"; "data_pb2"; "RadarImage"; "RadarPointCloud";
   "RadarDataStreamer"; "RadarImageStreamDisplay"; "draw_timestamp";
   "draw_grid_line"; "VideoWriter"; "IOPath"; "main";
   "convert_image_stream"; "convert_point_cloud_stream";
   "overlay_metadata"].

(** The names that [main] assigns. *)
Definition main_locals : list string :=
  ["parser"; "args"; "fig"; "artist"; "input_output_paths"; "radar_name";
   "output_path"; "io_path"; "video_writer"; "data_streamer"; "raw_data";
   "im_rgb"; "im_height"; "im_width"; "_"].

(** The names that [overlay_metadata] assigns, with its parameters. *)
Definition overlay_locals : list string :=
  ["raw_image"; "im_rgb"; "show_range_marker"; "timestamp"; "frame_id"].

(** The parsed command line. *)
Record Args : Type := {
  input_dir : string;
  output_dir : option string;
  radar_name : list string;
  frame_rate : Z;
  quality_factor : Z;
  point_cloud_flag : bool
}.

Record IOPath : Type := {
  image_pbs_path : option string;
  pc_pbs_path : option string;
  output_path : option string
}.

(** The body of the first loop of [main], for one radar name. *)
Definition io_path_of (args : Args) (name : string) : IOPath :=
  let output_path :=
    match output_dir args with
    | Some dir => Some (join dir (name +++ ".mp4"))
    | None => None
    end in
  if point_cloud_flag args then
    {| image_pbs_path := None;
       pc_pbs_path := Some (join (input_dir args) (name +++ "_points.pbs"));
       output_path := output_path |}
  else
    {| image_pbs_path := Some (join (input_dir args) (name +++ "_images.pbs"));
       pc_pbs_path := None;
       output_path := output_path |}.

Definition input_output_paths (args : Args) : list IOPath :=
  map (io_path_of args) (radar_name args).

(** *** [convert_point_cloud_stream] *)

(** The default imaging area. *)
Definition xmin : Z := 0.
Definition xmax : Z := 60.
Definition ymin : Z := -30.
Definition ymax : Z := 30.
Definition im_res : float := 0.1%float.

(** [int((hi - lo) / im_res)]. *)
Definition imsize (lo hi : Z) : Z :=
  match int_of_float (PrimFloat.div (float_of_Z (hi - lo)) im_res) with
  | Ok n => n
  | Raise _ => 0
  end.

Definition imsize_y : Z := imsize ymin ymax.
Definition imsize_x : Z := imsize xmin xmax.

Definition marker_color : pixel := (255, 0, 0).

(** Lines 163-165: the point list as an array, its first two columns
    moved to raster units. *)
Definition to_raster_units (pts : list point) : list point :=
  let im_pts := array pts in
  let im_pts :=
    set_col0 im_pts
      (div_scalar (sub_scalar (col0 im_pts) (float_of_Z xmin)) im_res) in
  let im_pts :=
    set_col1 im_pts
      (div_scalar (sub_scalar (col1 im_pts) (float_of_Z ymin)) im_res) in
  im_pts.

(** The centre handed to [cv2.circle] for a row [(x, y, _)] of
    [im_pts]: [(int(y), int(x))], [int(y)] evaluated first. *)
Definition center_of (row : point) : outcome (Z * Z) :=
  let '(x, y, _) := row in
  obind (int_of_float y) (fun cx =>
  obind (int_of_float x) (fun cy => Ok (cx, cy))).

(** The body of the loop of lines 168-173. *)
Definition stamp_marker (pc_image : image) (row : point) : outcome image :=
  obind (center_of row) (fun center =>
  Cv2.circle pc_image center 1 marker_color).

(** Lines 163-173: the raster of a non-empty point list. *)
Definition render_points (pts : list point) : outcome image :=
  let im_pts := to_raster_units pts in
  let pc_image := zeros imsize_y imsize_x in
  ofold stamp_marker im_pts pc_image.

Section Streams.

Variable ImageData : Type.

(** [RadarImageStreamDisplay] is not among the sources: an object
    created once per stream and called on every image. *)
Variable DisplayState : Type.
Variable display_new : DisplayState.
Variable display_call : DisplayState -> ImageData -> DisplayState * image.

(** The loop of lines 158-175 over the records of the streamer. *)
Fixpoint point_cloud_frames (pcs : list RadarPointCloud)
  : generator (raw_data ImageData * frame) :=
  match pcs with
  | [] => ([], None)
  | pc :: rest =>
      let pts := point_cloud pc in
      if (List.length pts =? 0)%nat then point_cloud_frames rest
      else
        match render_points pts with
        | Raise e => ([], Some e)
        | Ok pc_image =>
            let (frames, ending) := point_cloud_frames rest in
            ((RawPointCloud pc, bare pc_image) :: frames, ending)
        end
  end.

Definition convert_point_cloud_stream (w : world ImageData) (pc_pbs_path : string)
  : generator (raw_data ImageData * frame) :=
  match RadarDataStreamer w (@points_at ImageData) pc_pbs_path with
  | Ok pcs => point_cloud_frames pcs
  | Raise e => ([], Some e)
  end.

(** *** [convert_image_stream] *)

Fixpoint image_frames (display : DisplayState)
         (images : list (RadarImage ImageData))
  : list (raw_data ImageData * frame) :=
  match images with
  | [] => []
  | radar_image :: rest =>
      let (display', im_rgb) := display_call display (ri_image radar_image) in
      (RawImage radar_image, bare im_rgb) :: image_frames display' rest
  end.

Definition convert_image_stream (w : world ImageData) (image_pbs_path : string)
  : generator (raw_data ImageData * frame) :=
  let radar_image_display := display_new in
  match RadarDataStreamer w (@images_at ImageData) image_pbs_path with
  | Ok images => (image_frames radar_image_display images, None)
  | Raise e => ([], Some e)
  end.

(** *** [overlay_metadata] *)

(** The body opens with a string literal (it holds the range-marker
    block), then stamps the label. *)
Definition overlay_metadata (raw_image : raw_data ImageData) (im_rgb : frame)
           (show_range_marker : bool) : outcome frame :=
  (* overlay timestamp *)
  let timestamp := format_2_2f (timestamp_of raw_image) in
  let frame_id := format_d (frame_id_of raw_image) in
  obind (resolve overlay_locals globals "draw_timestamp") (fun _ =>
  Ok (draw_timestamp im_rgb ((frame_id +++ ":") +++ timestamp))).

(** *** [main] *)

(** The variables that the loops of [main] update. [artist] lives
    across the sessions, [video_writer] is reset by each. *)
Record vars : Type := {
  artist : option (Z * Z * Z);
  video_writer : option VideoWriter
}.

(** Lines 97-121: the body of the frame loop. *)
Definition process_frame (args : Args) (io_path : IOPath) (v : vars)
           (item : raw_data ImageData * frame) : M vars :=
  let (raw_data, im_rgb) := item in
  let '(im_height, im_width, _) := shape (pixels im_rgb) in
  im_rgb <- lift (overlay_metadata raw_data im_rgb false) ;;
  (* setup onscreen display *)
  artist' <- match artist v with
             | None => emit (Imshow (shape (pixels im_rgb))) ;;;
                       ret (Some (shape (pixels im_rgb)))
             | Some a => ret (Some a)
             end ;;
  (* setup video writer *)
  video_writer' <-
    match output_dir args, video_writer v with
    | Some _, None =>
        emit (VideoWriterNew (output_path io_path) im_width im_height
                (frame_rate args) (quality_factor args)) ;;;
        lift (resolve main_locals globals "stack") ;;;
        (* video_writer = stack.enter_context(video_writer) *)
        ret (Some {| vw_path := output_path io_path;
                     vw_width := im_width; vw_height := im_height;
                     vw_frame_rate := frame_rate args;
                     vw_quality_factor := quality_factor args |})
    | _, vw => ret vw
    end ;;
  (* write out frame *)
  match video_writer' with
  | Some _ => emit (VideoWrite im_rgb)
  | None => ret tt
  end ;;;
  (* on screen display *)
  emit (SetData im_rgb) ;;;
  ret {| artist := artist'; video_writer := video_writer' |}.

(** Lines 84-94: the stream of an IO path, after the check that its
    file exists. *)
Definition open_stream (w : world ImageData) (io_path : IOPath)
  : M (generator (raw_data ImageData * frame)) :=
  match image_pbs_path io_path with
  | Some path =>
      if negb (exists_ w path)
      then raise (SystemExit (path +++ " does not exist"))
      else ret (convert_image_stream w path)
  | None =>
      match pc_pbs_path io_path with
      | Some path =>
          if negb (exists_ w path)
          then raise (SystemExit (path +++ " does not exist"))
          else ret (convert_point_cloud_stream w path)
      | None => raise (TypeError "exists(None)")
      end
  end.

(** Lines 81-121: one turn of the loop over the IO paths; the value
    is [artist] as the turn leaves it. *)
Definition session (w : world ImageData) (args : Args) (artist0 : option (Z * Z * Z))
           (io_path : IOPath) : M (option (Z * Z * Z)) :=
  let v := {| artist := artist0; video_writer := None |} in
  data_streamer <- open_stream w io_path ;;
  v' <- for_gen data_streamer v (process_frame args io_path) ;;
  ret (artist v').

(** [main], from the parsed arguments on. *)
Definition main (w : world ImageData) (args : Args) : M unit :=
  let artist := None in
  for_each (input_output_paths args) artist (session w args) ;;;
  ret tt.

End Streams.

End ImagingViewer.

(** ** [point_cloud_viewer.py] *)

Module PointCloudViewer.
Import Py Np RadarImageOverlay.

(** The names bound at module level: the imports and the four
    functions. *)
Definition globals : list string :=
  ["join"; "ExitStack"; "argparse"; "np"; "plt"; "Merge"; "data_pb2";
   "RadarPointCloud"; "RadarDataStreamer"; "VideoWriter"; "main";
   "convert_point_cloud_stream"; "overlay_metadata"; "read_proto_text"].

(** The names that [overlay_metadata] assigns, with its parameters. *)
Definition overlay_locals : list string :=
  ["radar_image"; "im_rgb"; "show_range_marker"; "radar_position";
   "center"; "pixels_per_meter"; "timestamp"; "frame_id"].

Record Args : Type := {
  input_dir : string;
  output_dir : option string;
  radar_name : list string;
  frame_rate : Z;
  quality_factor : Z
}.

(** The body of the first loop of [main]: [(pbs_path, output_path)]. *)
Definition io_path_of (args : Args) (name : string)
  : string * option string :=
  let pbs_path := join (input_dir args) (name +++ "_points.pbs") in
  let output_path :=
    match output_dir args with
    | Some dir => Some (join dir (name +++ "_points.mp4"))
    | None => None
    end in
  (pbs_path, output_path).

Definition input_output_paths (args : Args) : list (string * option string) :=
  map (io_path_of args) (radar_name args).

(** ["%s" % output_path] for a string or [None]. *)
Definition percent_s (output_path : option string) : string :=
  match output_path with
  | Some path => path
  | None => "None"
  end.

Section Run.

Variable ImageData : Type.

(** Lines 102-108: the body of the loop of
    [convert_point_cloud_stream]. *)
Definition plot_point_cloud (pc : RadarPointCloud) : M unit :=
  let pts := point_cloud pc in
  if (List.length pts =? 0)%nat then ret tt
  else
    let pts := array pts in
    emit (Scatter (col0 pts) (col1 pts)) ;;;
    emit Show.

(** [convert_point_cloud_stream] holds no [yield]: calling it runs its
    body to the end and returns [None]. *)
Definition convert_point_cloud_stream (w : world ImageData)
           (pc_pbs_path : string) : M unit :=
  point_cloud_streamer <-
    lift (RadarDataStreamer w (@points_at ImageData) pc_pbs_path) ;;
  for_each point_cloud_streamer tt (fun _ pc => plot_point_cloud pc).

(** Lines 58-91: one turn of the loop over the paths. The statement
    after the call of [convert_point_cloud_stream] is a string
    literal. The value is [video_writer] as the turn leaves it. *)
Definition session (w : world ImageData) (args : Args)
           (video_writer0 : option VideoWriter)
           (io_path : string * option string) : M (option VideoWriter) :=
  let (pc_pbs_path, output_path) := io_path in
  let video_writer := None in
  emit (Print ("writing out video file to " +++ percent_s output_path)) ;;;
  streamer <- convert_point_cloud_stream w pc_pbs_path ;;
  ret video_writer.

(** [main], from the parsed arguments on; the value is the last value
    of [video_writer]. *)
Definition main (w : world ImageData) (args : Args)
  : M (option VideoWriter) :=
  for_each (input_output_paths args) None (session w args).

(** [overlay_metadata]. *)
Definition overlay_metadata (radar_image : raw_data ImageData)
           (im_rgb : frame) (show_range_marker : bool) : outcome frame :=
  obind
    (* overlay range markers *)
    (if show_range_marker then
       obind (geometry radar_image) (fun r =>
       let radar_position := extrinsic_position r in
       let center := global_to_image (image_model r) radar_position in
       let pixels_per_meter :=
         PrimFloat.div 1%float (di_norm (image_model r)) in
       obind (resolve overlay_locals globals "draw_grid_line") (fun _ =>
       Ok (draw_grid_line im_rgb center pixels_per_meter 5)))
     else Ok im_rgb)
    (fun im_rgb =>
       (* overlay timestamp *)
       let timestamp := format_2_2f (timestamp_of radar_image) in
       let frame_id := format_d (frame_id_of radar_image) in
       obind (resolve overlay_locals globals "draw_timestamp") (fun _ =>
       Ok (draw_timestamp im_rgb ((frame_id +++ ":") +++ timestamp)))).

End Run.

End PointCloudViewer.

(** ** The specification's own words

    The definitions of this module follow the sentences of the
    specification, not the code; the theorems of the second part compare
    them with the code. *)
Module Spec.
Import Py Np.

(** The fixed imaging window and its resolution (section 4.3). *)
Definition xmin : float := 0%float.
Definition xmax : float := 60%float.
Definition ymin : float := (-30)%float.
Definition ymax : float := 30%float.
Definition resolution : float := 0.1%float.

(** [pixel_x = (point_y - ymin) / resolution]. *)
Definition pixel_x (p : point) : float :=
  let '(_, point_y, _) := p in
  PrimFloat.div (PrimFloat.sub point_y ymin) resolution.

(** [pixel_y = (point_x - xmin) / resolution]. *)
Definition pixel_y (p : point) : float :=
  let '(point_x, _, _) := p in
  PrimFloat.div (PrimFloat.sub point_x xmin) resolution.

(** The raster pixel of a point: the integer parts of the two
    transformed coordinates, column first. *)
Definition pixel_of (p : point) : outcome (Z * Z) :=
  obind (int_of_float (pixel_x p)) (fun col =>
  obind (int_of_float (pixel_y p)) (fun row => Ok (col, row))).

(** A point outside [[xmin, xmax] x [ymin, ymax]]. *)
Definition outside_window (p : point) : bool :=
  let '(x, y, _) := p in
  PrimFloat.ltb x xmin || PrimFloat.ltb xmax x
  || PrimFloat.ltb y ymin || PrimFloat.ltb ymax y.

(** The label of a frame (section 4.4), read from the words of the
    specification alone: decimal numerals, and a timestamp rounded to
    the nearest hundredth of its exact value. *)

(** The digit of a number below ten. *)
Definition digit (d : Z) : ascii :=
  match d with
  | 0 => "0" | 1 => "1" | 2 => "2" | 3 => "3" | 4 => "4"
  | 5 => "5" | 6 => "6" | 7 => "7" | 8 => "8" | _ => "9"
  end%char.

(** The decimal digits of a natural number, the most significant first,
    written in front of [rest]; [width] bounds their number. *)
Fixpoint digits (width : nat) (n : Z) (rest : string) : string :=
  match width with
  | O => rest
  | S width' =>
      let rest' := String (digit (n mod 10)) rest in
      if n <? 10 then rest' else digits width' (n / 10) rest'
  end.

(** A natural number has no more decimal digits than binary ones. *)
Definition natural (n : Z) : string :=
  digits (S (Z.to_nat (Z.log2 n))) n "".

(** The decimal numeral of an integer. *)
Definition numeral (z : Z) : string :=
  if z <? 0 then "-" +++ natural (- z) else natural z.

(** The exact value [m * 2 ^ e] of the magnitude of a finite binary64
    number, as a rational. *)
Definition exact_value (m : positive) (e : Z) : Q :=
  Qmult (inject_Z (Z.pos m)) (Qpower (Qmake 2 1) e).

(** The integer nearest to a rational, the even one of the two at a
    tie. *)
Definition nearest_integer (q : Q) : Z :=
  let below := Qfloor q in
  match Qcompare (Qminus q (inject_Z below)) (Qmake 1 2) with
  | Lt => below
  | Gt => below + 1
  | Eq => if Z.even below then below else below + 1
  end.

Definition sign (negative : bool) : string :=
  if negative then "-" else "".

(** A number of hundredths written with two decimal places. *)
Definition with_two_decimals (h : Z) : string :=
  numeral (h / 100) +++ "."
    +++ String (digit (h mod 100 / 10))
          (String (digit (h mod 100 mod 10)) "").

(** A timestamp formatted to two decimal places: the numeral, with two
    digits after the point, of the hundredth nearest to its value. A
    timestamp that is no number has no decimal places and is written
    by its name. *)
Definition two_decimals (timestamp : float) : string :=
  match Prim2SF timestamp with
  | S754_zero s => sign s +++ "0.00"
  | S754_finite s m e =>
      sign s
        +++ with_two_decimals
              (nearest_integer (Qmult (inject_Z 100) (exact_value m e)))
  | S754_infinity s => sign s +++ "inf"
  | S754_nan => "nan"
  end.

(** ["<frame_id>:<timestamp formatted to 2 decimal places>"]. *)
Definition frame_label (frame_id : Z) (timestamp : float) : string :=
  numeral frame_id +++ ":" +++ two_decimals timestamp.

(** The output video of a radar name (section 6): [<radar-name>.mp4],
    or [<radar-name>_points.mp4] in point-cloud mode, under the output
    directory. *)
Definition output_video (output_dir radar_name : string)
           (point_cloud_mode : bool) : string :=
  join output_dir
    (radar_name +++ (if point_cloud_mode then "_points.mp4" else ".mp4")).

End Spec.

(** ** Notions used by the statements *)

Section RasterNotions.
Import Py Np Cv2 ImagingViewer.

(** The array assignments of lines 164-165 act on every row alone. *)
Definition raster_units (p : point) : point :=
  (Spec.pixel_y p, Spec.pixel_x p, snd p).

(** The marker of a point, from its physical coordinates. *)
Definition stamp_point (pc_image : image) (p : point) : outcome image :=
  obind (Spec.pixel_of p) (fun center =>
  Cv2.circle pc_image center 1 marker_color).

(** The colour replaces the pixel where the condition holds. *)
Definition paint (cond : bool) (color p : pixel) : pixel :=
  if cond then color else p.

(** Every row of the raster is as long as the first one. *)
Definition rect (img : image) : Prop :=
  Forall (fun row => List.length row = List.length (hd [] img)) img.

(** The row lengths of a raster, the invariant of every drawing
    step. *)
Definition widths (img : image) : list nat := map (@List.length pixel) img.

(** The pixels of the marker of centre [(col, row)]. *)
Definition in_marker (col row r c : Z) : bool :=
  Z.abs (r - row) + Z.abs (c - col) <=? 1.

(** The renderer returns a raster as soon as every point has a pixel
    that fits a C [int]. *)
Definition stampable (p : point) : Prop :=
  exists col row,
    Spec.pixel_of p = Ok (col, row)
    /\ fits_int col && fits_int row = true.

(** A point inside the imaging window and a point 5 cm behind the
    sensor, outside the window. *)
Definition inside_point : point := (10, 0, 0)%float.
Definition outside_point : point := (-0.05, 0, 0)%float.

End RasterNotions.

Section SessionNotions.
Import Py Np RadarImageOverlay ImagingViewer.

Variable ImageData : Type.
Variable DisplayState : Type.
Variable display_new : DisplayState.
Variable display_call : DisplayState -> ImageData -> DisplayState * image.

(** [len(pc.point_cloud) == 0]. *)
Definition is_empty (pc : RadarPointCloud) : bool :=
  (List.length (point_cloud pc) =? 0)%nat.

(** A record stream without its empty point clouds. *)
Definition drop_empty (pcs : list RadarPointCloud) : list RadarPointCloud :=
  filter (fun pc => negb (is_empty pc)) pcs.

(** A tracker state with an empty point list. *)
Definition empty_frame (frame_id : Z) (timestamp : float) : RadarPointCloud :=
  {| pc_frame_id := frame_id; pc_timestamp := timestamp; point_cloud := [] |}.

(** The IO path of a point-cloud file. *)
Definition point_cloud_path (path : string) (output : option string)
  : IOPath :=
  {| image_pbs_path := None; pc_pbs_path := Some path;
     output_path := output |}.

(** The constructions of a [VideoWriter] in a trace, by their
    arguments. *)
Definition constructions (t : list event)
  : list (option string * Z * Z * Z * Z) :=
  flat_map (fun e => match e with
                     | VideoWriterNew path w h rate quality =>
                         [(path, w, h, rate, quality)]
                     | _ => []
                     end) t.

(** The input file of a radar name. *)
Definition input_path (args : Args) (name : string) : string :=
  join (input_dir args)
    (name +++ (if point_cloud_flag args then "_points.pbs"
               else "_images.pbs")).

(** The data set whose point-cloud files have lost their empty
    records. *)
Definition without_empty (w : world ImageData) : world ImageData :=
  {| file_exists := file_exists w;
     images_at := images_at w;
     points_at := fun path => drop_empty (points_at w path) |}.

(** A data set where every path holds the same point-cloud records. *)
Definition world_of_points (pcs : list RadarPointCloud) : world ImageData :=
  {| file_exists := fun _ => true;
     images_at := fun _ => [];
     points_at := fun _ => pcs |}.

(** The frames of the stream that a session opens. *)
Definition opened_frames (w : world ImageData) (io_path : IOPath)
  : list (raw_data ImageData * frame) :=
  match result (open_stream display_new display_call w io_path) with
  | Ok data_streamer => fst data_streamer
  | Raise _ => []
  end.

(** A stream that opens, yields no frame and ends by exhaustion. *)
Definition empty_stream (w : world ImageData) (io_path : IOPath) : Prop :=
  open_stream display_new display_call w io_path = ret ([], None).

(** The expected constructions of one session. *)
Definition first_frame_construction (args : Args) (io_path : IOPath)
           (frames : list (raw_data ImageData * frame))
  : list (option string * Z * Z * Z * Z) :=
  match output_dir args, frames with
  | Some _, (_, im_rgb) :: _ =>
      let '(im_height, im_width, _) := shape (pixels im_rgb) in
      [(output_path io_path, im_width, im_height,
        frame_rate args, quality_factor args)]
  | _, _ => []
  end.

End SessionNotions.

Section ViewerNotions.
Import Py Np PointCloudViewer.

Variable ImageData : Type.


(** The scatter plots of a record stream, one per non-empty record. *)
Definition plots_of (pcs : list RadarPointCloud) : list event :=
  flat_map (fun pc =>
              if is_empty pc then []
              else [Scatter (col0 (point_cloud pc)) (col1 (point_cloud pc));
                    Show]) pcs.


End ViewerNotions.

(** ** Sample data *)

Module Samples.
Import Py Np.

(** An image frame with identifier 42 and timestamp 3.14159. *)
Definition image_record : RadarImage unit :=
  {| ri_frame_id := 42;
     ri_timestamp := 3.14159%float;
     ri_image := tt;
     extrinsic_position := [0; 0; 0]%float;
     image_model := {| di_norm := 0.5%float;
                       global_to_image := fun position => position |} |}.

(** A display that colours every image as a black 2 by 3 raster. *)
Definition display (state image : unit) : unit * Np.image :=
  (tt, zeros 2 3).

(** A data set in which the radar [b] has an image file of one record
    and no other file exists. *)
Definition only_b : world unit :=
  {| file_exists := fun path => String.eqb path "in/b_images.pbs";
     images_at := fun _ => [image_record];
     points_at := fun _ => [] |}.

(** A data set in which every file exists, the image file of the radar
    [a] holds no record and every other image file holds one. *)
Definition empty_a : world unit :=
  {| file_exists := fun _ => true;
     images_at := fun path => if String.eqb path "in/a_images.pbs"
                              then [] else [image_record];
     points_at := fun _ => [] |}.

Definition args_of (names : list string) (output : option string)
           (point_cloud_mode : bool) : ImagingViewer.Args :=
  {| ImagingViewer.input_dir := "in";
     ImagingViewer.output_dir := output;
     ImagingViewer.radar_name := names;
     ImagingViewer.frame_rate := 10;
     ImagingViewer.quality_factor := 23;
     ImagingViewer.point_cloud_flag := point_cloud_mode |}.

(** A tracker state with one point. *)
Definition point_record : RadarPointCloud :=
  {| pc_frame_id := 7;
     pc_timestamp := 1.5%float;
     point_cloud := [(1, 2, 0)%float] |}.

(** A data set in which every path holds that one tracker state. *)
Definition one_point : world unit :=
  {| file_exists := fun _ => true;
     images_at := fun _ => [];
     points_at := fun _ => [point_record] |}.


End Samples.

(** ** Further notions: rasters, sinks and errors *)

Section FurtherNotions.
Import Py Np Cv2 RadarImageOverlay ImagingViewer.

Variable ImageData : Type.

(** The pixel [(r, c)] lies in the marker of one of the points. *)
Definition covered (pts : list point) (r c : Z) : bool :=
  existsb (fun q => match Spec.pixel_of q with
                    | Ok (col, row) => in_marker col row r c
                    | Raise _ => false
                    end) pts.

(** The positions of the raster of the point-cloud renderer. *)
Definition inside_raster (r c : Z) : bool :=
  (0 <=? r) && (r <? imsize_y) && (0 <=? c) && (c <? imsize_x).

(** The marker of the pixel [(col, row)], its centre and the four
    neighbours of the centre, has a position in the raster. *)
Definition marker_in_raster (col row : Z) : bool :=
  inside_raster row col
  || inside_raster (row - 1) col || inside_raster (row + 1) col
  || inside_raster row (col - 1) || inside_raster row (col + 1).

(** A frame as it reaches the sinks: the raster frame of the stream with
    the label of its record stamped on it. *)
Definition displayed (item : raw_data ImageData * frame) : frame :=
  draw_timestamp (snd item)
    (Spec.frame_label (frame_id_of (fst item)) (timestamp_of (fst item))).

(** The setting up of the display artist by the first frame of a frame
    list, when no artist exists yet. *)
Definition artist_setup (artist0 : option (Z * Z * Z))
           (frames : list (raw_data ImageData * frame)) : list event :=
  match artist0, frames with
  | None, item :: _ => [Imshow (shape (pixels (snd item)))]
  | _, _ => []
  end.

(** The display artist after a frame list. *)
Definition artist_after (artist0 : option (Z * Z * Z))
           (frames : list (raw_data ImageData * frame))
  : option (Z * Z * Z) :=
  match artist0, frames with
  | None, item :: _ => Some (shape (pixels (snd item)))
  | _, _ => artist0
  end.

(** The number of artists that may still be created: one as long as
    [artist] is [None]. *)
Definition artists_left (artist0 : option (Z * Z * Z)) : nat :=
  match artist0 with
  | None => 1
  | Some _ => 0
  end.

(** What [os.path.join] puts between a directory and a relative file
    name. *)
Definition separator (dir : string) : string :=
  if (String.length dir =? 0)%nat || ends_with_sep dir then "" else "/".

(** The frames of a run in image mode: those of the files of the radar
    names, in the order of the command line, every file coloured by a
    display of its own. *)
Definition image_run_frames (DisplayState : Type) (display_new : DisplayState)
           (display_call : DisplayState -> ImageData -> DisplayState * image)
           (w : world ImageData) (args : Args) (names : list string)
  : list (raw_data ImageData * frame) :=
  flat_map (fun name =>
              image_frames display_call display_new
                (images_at w (input_path args name))) names.

(** The frames of a run in point-cloud mode: those of the files of the
    radar names, in the order of the command line. *)
Definition point_cloud_run_frames (w : world ImageData) (args : Args)
           (names : list string) : list (raw_data ImageData * frame) :=
  flat_map (fun name =>
              fst (point_cloud_frames ImageData
                     (points_at w (input_path args name)))) names.

(** The creations of the display artist in a trace. *)
Definition imshows (t : list event) : nat :=
  List.length (filter (fun e => match e with
                                | Imshow _ => true
                                | _ => false
                                end) t).

(** An event other than a frame handed to the video writer. *)
Definition no_video_write (e : event) : Prop :=
  match e with
  | VideoWrite _ => False
  | _ => True
  end.

(** The exceptions of the rendering of a point list: those of [int] and
    of the conversion of the centre by [cv2.circle]. *)
Definition render_error (e : error) : Prop :=
  match e with
  | ValueError _ | OverflowError _ | CvArgumentError _ => True
  | _ => False
  end.

(** The ways in which [main] of [imaging_viewer] can end with an
    exception. *)
Definition main_error (args : Args) (e : error) : Prop :=
  (exists name,
      In name (radar_name args)
      /\ e = SystemExit (input_path args name +++ " does not exist"))
  \/ e = NameError "stack"
  \/ (point_cloud_flag args = true /\ render_error e).

End FurtherNotions.

(* ================================================================== *)
(** * Part II: properties *)
(* ================================================================== *)

(** ** Sanity checks of the runtime fragments *)

Example format_d_42 : Py.format_d 42 = "42".
Proof. reflexivity. Qed.

Example format_d_negative : Py.format_d (-7) = "-7".
Proof. reflexivity. Qed.

Example format_2_2f_pi : Py.format_2_2f 3.14159%float = "3.14".
Proof. vm_compute. reflexivity. Qed.

Example format_2_2f_small_negative : Py.format_2_2f (-0.001)%float = "-0.00".
Proof. vm_compute. reflexivity. Qed.

Example format_2_2f_tie_down : Py.format_2_2f 0.125%float = "0.12".
Proof. vm_compute. reflexivity. Qed.

Example format_2_2f_tie_up : Py.format_2_2f 0.375%float = "0.38".
Proof. vm_compute. reflexivity. Qed.

Example format_2_2f_carry : Py.format_2_2f 1234567.899%float = "1234567.90".
Proof. vm_compute. reflexivity. Qed.

Example two_decimals_tie_down : Spec.two_decimals 0.125%float = "0.12".
Proof. vm_compute. reflexivity. Qed.

Example two_decimals_tie_up : Spec.two_decimals 0.375%float = "0.38".
Proof. vm_compute. reflexivity. Qed.

Example two_decimals_carry :
  Spec.two_decimals 1234567.899%float = "1234567.90".
Proof. vm_compute. reflexivity. Qed.

Example numeral_negative : Spec.numeral (-7) = "-7".
Proof. vm_compute. reflexivity. Qed.

Example format_2_2f_nan : Py.format_2_2f nan = "nan".
Proof. vm_compute. reflexivity. Qed.

Example int_of_float_truncates :
  Py.int_of_float (-0.5)%float = Py.Ok 0
  /\ Py.int_of_float 2.9%float = Py.Ok 2
  /\ Py.int_of_float (-2.9)%float = Py.Ok (-2).
Proof. vm_compute. repeat split. Qed.

Example join_plain : Py.join "out" "r.mp4" = "out/r.mp4".
Proof. reflexivity. Qed.

Example join_trailing_sep : Py.join "out/" "r.mp4" = "out/r.mp4".
Proof. reflexivity. Qed.

Example join_absolute : Py.join "out" "/r.mp4" = "/r.mp4".
Proof. reflexivity. Qed.

Example circle_radius_1 :
  Cv2.circle (Np.zeros 4 4) (1, 2) 1 (255, 0, 0)
  = Py.Ok [[(0,0,0); (0,0,0); (0,0,0); (0,0,0)];
           [(0,0,0); (255,0,0); (0,0,0); (0,0,0)];
           [(255,0,0); (255,0,0); (255,0,0); (0,0,0)];
           [(0,0,0); (255,0,0); (0,0,0); (0,0,0)]].
Proof. vm_compute. reflexivity. Qed.

Example circle_clipped :
  Cv2.circle (Np.zeros 3 3) (-1, 0) 1 (255, 0, 0)
  = Py.Ok [[(255,0,0); (0,0,0); (0,0,0)];
           [(0,0,0); (0,0,0); (0,0,0)];
           [(0,0,0); (0,0,0); (0,0,0)]].
Proof. vm_compute. reflexivity. Qed.

Example imsize_600 :
  ImagingViewer.imsize_y = 600 /\ ImagingViewer.imsize_x = 600.
Proof. vm_compute. split; reflexivity. Qed.

(** ** Strings *)

Lemma append_assoc (a b c : string) : (a +++ b) +++ c = a +++ (b +++ c).
Proof.
  induction a as [|ch a IH]; simpl.
  - reflexivity.
  - now rewrite IH.
Qed.

Lemma length_append (a b : string) :
  String.length (a +++ b) = (String.length a + String.length b)%nat.
Proof.
  induction a as [|ch a IH]; simpl.
  - reflexivity.
  - now rewrite IH.
Qed.

Lemma pad_left_long (width : nat) (s : string) :
  (width <= String.length s)%nat -> Py.pad_left width s = s.
Proof.
  intros Hlen. unfold Py.pad_left.
  replace (width - String.length s)%nat with 0%nat by lia.
  reflexivity.
Qed.

Lemma fixed2_length (negative : bool) (h : Z) :
  (3 <= String.length (Py.fixed2 negative h))%nat.
Proof.
  unfold Py.fixed2. rewrite !length_append. simpl. lia.
Qed.

Lemma format_prec2_length (f : float) :
  (3 <= String.length (Py.format_prec2 f))%nat.
Proof.
  unfold Py.format_prec2.
  destruct (Prim2SF f) as [s|s| |s m e].
  - apply fixed2_length.
  - destruct s; simpl; lia.
  - simpl; lia.
  - apply fixed2_length.
Qed.

(** The minimal field width of ["%2.2f"] never pads. *)
Lemma format_2_2f_no_padding (f : float) :
  Py.format_2_2f f = Py.format_prec2 f.
Proof.
  unfold Py.format_2_2f. apply pad_left_long.
  pose proof (format_prec2_length f). lia.
Qed.

(** [round_half_even] is a nearest integer: it is within half a unit of
    the quotient. *)
Lemma round_half_even_nearest (num den : Z) :
  0 < den ->
  2 * Z.abs (num - Py.round_half_even num den * den) <= den.
Proof.
  intros Hden. unfold Py.round_half_even.
  pose proof (Z.div_mod num den ltac:(lia)) as Hdm.
  pose proof (Z.mod_pos_bound num den Hden) as Hr.
  destruct (2 * (num mod den) <? den) eqn:E1.
  - apply Z.ltb_lt in E1. nia.
  - apply Z.ltb_ge in E1.
    destruct (den <? 2 * (num mod den)) eqn:E2.
    + apply Z.ltb_lt in E2. nia.
    + apply Z.ltb_ge in E2. destruct (Z.even (num / den)); nia.
Qed.

(** The two decimals of a finite timestamp are those of the hundredth
    nearest to its exact value [m * 2 ^ e]. *)
Lemma hundredths_nearest (m : positive) (e : Z) :
  e < 0 ->
  2 * Z.abs (Z.pos m * 100 - Py.hundredths m e * 2 ^ (- e)) <= 2 ^ (- e).
Proof.
  intros He. unfold Py.hundredths.
  destruct (0 <=? e) eqn:E; [apply Z.leb_le in E; lia|].
  apply round_half_even_nearest. apply Z.pow_pos_nonneg; lia.
Qed.

(** *** The label of the specification

    The decimal numerals of the specification are those that ["%d"]
    prints, and its nearest hundredth is the one that ["%.2f"]
    prints. *)

(** One more leading digit in front of a digit list: its text, its
    value, its length, and that it has no leading zero. *)
Lemma digit_cons (k : Z) (acc : Decimal.uint) :
  0 <= k < 10 ->
  exists U,
    String (Spec.digit k) (NilEmpty.string_of_uint acc)
    = NilEmpty.string_of_uint U
    /\ N.of_uint U
       = (N.of_uint acc + Z.to_N k * 10 ^ DecimalPos.Unsigned.usize acc)%N
    /\ DecimalPos.Unsigned.usize U = N.succ (DecimalPos.Unsigned.usize acc)
    /\ (0 < k -> Decimal.unorm U = U).
Proof.
  intros Hk.
  assert (Hcases : k = 0 \/ k = 1 \/ k = 2 \/ k = 3 \/ k = 4 \/ k = 5
                   \/ k = 6 \/ k = 7 \/ k = 8 \/ k = 9) by lia.
  assert (Hval : forall U k',
             Decimal.rev U = Decimal.revapp acc k' ->
             N.of_uint U
             = (N.of_uint acc
                + DecimalPos.Unsigned.of_lu k'
                  * 10 ^ DecimalPos.Unsigned.usize acc)%N).
  { intros U k' HU. rewrite !DecimalPos.Unsigned.of_uint_alt, HU.
    apply DecimalPos.Unsigned.of_lu_revapp. }
  destruct Hcases as [->|[->|[->|[->|[->|[->|[->|[->|[->| ->]]]]]]]]];
    [exists (Decimal.D0 acc)|exists (Decimal.D1 acc)|exists (Decimal.D2 acc)
    |exists (Decimal.D3 acc)|exists (Decimal.D4 acc)|exists (Decimal.D5 acc)
    |exists (Decimal.D6 acc)|exists (Decimal.D7 acc)|exists (Decimal.D8 acc)
    |exists (Decimal.D9 acc)];
    (split; [reflexivity|split; [|split; [reflexivity|]]]);
    try (intros H0; try lia; reflexivity).
  - exact (Hval (Decimal.D0 acc) (Decimal.D0 Decimal.Nil) eq_refl).
  - exact (Hval (Decimal.D1 acc) (Decimal.D1 Decimal.Nil) eq_refl).
  - exact (Hval (Decimal.D2 acc) (Decimal.D2 Decimal.Nil) eq_refl).
  - exact (Hval (Decimal.D3 acc) (Decimal.D3 Decimal.Nil) eq_refl).
  - exact (Hval (Decimal.D4 acc) (Decimal.D4 Decimal.Nil) eq_refl).
  - exact (Hval (Decimal.D5 acc) (Decimal.D5 Decimal.Nil) eq_refl).
  - exact (Hval (Decimal.D6 acc) (Decimal.D6 Decimal.Nil) eq_refl).
  - exact (Hval (Decimal.D7 acc) (Decimal.D7 Decimal.Nil) eq_refl).
  - exact (Hval (Decimal.D8 acc) (Decimal.D8 Decimal.Nil) eq_refl).
  - exact (Hval (Decimal.D9 acc) (Decimal.D9 Decimal.Nil) eq_refl).
Qed.

(** The digits of a positive number are a digit list without leading
    zero whose value is the number. *)
Lemma digits_uint (width : nat) :
  forall (n : Z) (acc : Decimal.uint),
    0 < n < 10 ^ Z.of_nat width ->
    exists U,
      Spec.digits width n (NilEmpty.string_of_uint acc)
      = NilEmpty.string_of_uint U
      /\ N.of_uint U
         = (N.of_uint acc + Z.to_N n * 10 ^ DecimalPos.Unsigned.usize acc)%N
      /\ Decimal.unorm U = U.
Proof.
  induction width as [|width IH]; intros n acc Hn.
  - simpl in Hn. lia.
  - cbn [Spec.digits].
    destruct (@digit_cons (n mod 10) acc) as (U & Hs & Hv & Hsize & Hnorm).
    { apply Z.mod_pos_bound. lia. }
    destruct (n <? 10) eqn:E.
    + apply Z.ltb_lt in E. rewrite Z.mod_small in * by lia.
      exists U. split; [exact Hs|]. split; [exact Hv|]. apply Hnorm. lia.
    + apply Z.ltb_ge in E. rewrite Hs.
      destruct (IH (n / 10) U) as (U' & Hs' & Hv' & Hnorm').
      { rewrite Nat2Z.inj_succ, Z.pow_succ_r in Hn by lia.
        split.
        - apply Z.div_str_pos. lia.
        - apply Z.div_lt_upper_bound; lia. }
      exists U'. split; [exact Hs'|]. split; [|exact Hnorm'].
      rewrite Hv', Hv, Hsize, N.pow_succ_r'.
      pose proof (Z.div_mod n 10 ltac:(lia)) as Hdm.
      pose proof (Z.mod_pos_bound n 10 ltac:(lia)) as Hm.
      assert (Hdiv : 0 <= n / 10) by (apply Z.div_pos; lia).
      replace (Z.to_N n)
        with (Z.to_N (n mod 10) + 10 * Z.to_N (n / 10))%N by lia.
      generalize (10 ^ DecimalPos.Unsigned.usize acc)%N; intros t; nia.
Qed.

Lemma natural_pos (p : positive) :
  Spec.natural (Z.pos p) = NilEmpty.string_of_uint (Pos.to_uint p).
Proof.
  unfold Spec.natural.
  destruct (@digits_uint (S (Z.to_nat (Z.log2 (Z.pos p)))) (Z.pos p)
              Decimal.Nil) as (U & Hs & Hv & Hnorm).
  { split; [lia|].
    rewrite Nat2Z.inj_succ, Z2Nat.id by apply Z.log2_nonneg.
    pose proof (Z.log2_spec (Z.pos p) ltac:(lia)) as [_ Hlt].
    eapply Z.lt_le_trans; [exact Hlt|].
    apply Z.pow_le_mono_l. lia. }
  change (NilEmpty.string_of_uint Decimal.Nil) with "" in Hs.
  rewrite Hs. f_equal.
  rewrite <- Hnorm, <- DecimalN.Unsigned.to_of, Hv.
  replace (N.of_uint Decimal.Nil
           + Z.to_N (Z.pos p) * 10 ^ DecimalPos.Unsigned.usize Decimal.Nil)%N
    with (N.pos p) by (simpl; lia).
  reflexivity.
Qed.

Lemma string_of_uint_to_uint (p : positive) :
  NilZero.string_of_uint (Pos.to_uint p)
  = NilEmpty.string_of_uint (Pos.to_uint p).
Proof.
  unfold NilZero.string_of_uint.
  pose proof (DecimalPos.Unsigned.to_uint_nonnil p) as Hnil.
  destruct (Pos.to_uint p); [contradiction|reflexivity..].
Qed.

(** The numerals of the specification are the decimal notation of the
    Standard Library. *)
Lemma numeral_is_decimal_notation (z : Z) :
  Spec.numeral z = NilZero.string_of_int (Z.to_int z).
Proof.
  unfold Spec.numeral. destruct z as [|p|p].
  - reflexivity.
  - change (Z.pos p <? 0) with false. cbv iota.
    rewrite natural_pos. simpl. now rewrite string_of_uint_to_uint.
  - change (Z.neg p <? 0) with true. cbv iota.
    change (- Z.neg p) with (Z.pos p).
    rewrite natural_pos. simpl. now rewrite string_of_uint_to_uint.
Qed.

(** The nearest integer of a fraction, by integer division. *)
Lemma nearest_integer_fraction (a : Z) (b : positive) :
  Spec.nearest_integer (Qmake a b) = Py.round_half_even a (Z.pos b).
Proof.
  unfold Spec.nearest_integer, Py.round_half_even.
  cbv beta zeta.
  change (Qfloor (Qmake a b)) with (a / Z.pos b).
  unfold Qcompare, Qminus, Qplus, Qopp, inject_Z. cbn [Qnum Qden].
  pose proof (Z.div_mod a (Z.pos b) ltac:(lia)) as Hdm.
  pose proof (Z.mod_pos_bound a (Z.pos b) ltac:(lia)) as Hm.
  set (q := a / Z.pos b) in *. set (r := a mod Z.pos b) in *.
  replace ((a * 1 + - q * Z.pos b) * Z.pos 2) with (2 * r) by lia.
  replace (1 * Z.pos (b * 1)) with (Z.pos b) by lia.
  destruct (Z.compare_spec (2 * r) (Z.pos b)) as [Heq|Hlt|Hgt].
  - destruct (2 * r <? Z.pos b) eqn:E1; [lia|].
    destruct (Z.pos b <? 2 * r) eqn:E2; [lia|]. reflexivity.
  - destruct (2 * r <? Z.pos b) eqn:E1; [reflexivity|lia].
  - destruct (2 * r <? Z.pos b) eqn:E1; [lia|].
    destruct (Z.pos b <? 2 * r) eqn:E2; [reflexivity|lia].
Qed.

Lemma pos_pow_1_l (p : positive) : (1 ^ p)%positive = 1%positive.
Proof.
  apply Pos2Z.inj. rewrite Pos2Z.inj_pow. apply Z.pow_1_l. lia.
Qed.

(** The hundredths that ["%.2f"] prints are the hundredth nearest to
    the exact value of the float. *)
Lemma nearest_hundredth_is_hundredths (m : positive) (e : Z) :
  Spec.nearest_integer (Qmult (inject_Z 100) (Spec.exact_value m e))
  = Py.hundredths m e.
Proof.
  unfold Spec.exact_value, Py.hundredths.
  destruct e as [|p|p].
  - change (0 <=? 0) with true. cbv iota.
    change (Qmult (inject_Z 100)
              (Qmult (inject_Z (Z.pos m)) (Qpower (Qmake 2 1) 0)))
      with (Qmake (100 * (Z.pos m * 1)) (1 * (1 * 1))).
    rewrite nearest_integer_fraction. unfold Py.round_half_even.
    cbv beta zeta. rewrite Z.mod_1_r, Z.div_1_r.
    change (2 * 0 <? Z.pos (1 * (1 * 1))) with true. cbv iota.
    change (2 ^ 0) with 1. lia.
  - change (0 <=? Z.pos p) with true. cbv iota.
    unfold Qpower. rewrite Qpower_decomp_positive.
    unfold Qmult, inject_Z. cbn [Qnum Qden].
    rewrite nearest_integer_fraction. unfold Py.round_half_even.
    cbv beta zeta. rewrite pos_pow_1_l.
    change (Z.pos (1 * (1 * 1))) with 1.
    rewrite Z.mod_1_r, Z.div_1_r.
    change (2 * 0 <? 1) with true. cbv iota. lia.
  - change (0 <=? Z.neg p) with false. cbv iota.
    unfold Qpower. rewrite Qpower_decomp_positive.
    rewrite pos_pow_1_l.
    assert (Hpow : 2 ^ Z.pos p = Z.pos (2 ^ p))
      by (now rewrite Pos2Z.inj_pow).
    rewrite Hpow.
    unfold Qinv, Qmult, inject_Z. cbn [Qnum Qden].
    rewrite nearest_integer_fraction.
    change (- Z.neg p) with (Z.pos p). rewrite Hpow.
    f_equal; lia.
Qed.

Lemma digit_is_digit_char (d : Z) :
  0 <= d < 10 -> Spec.digit d = Py.digit_char d.
Proof.
  intros Hd.
  assert (Hcases : d = 0 \/ d = 1 \/ d = 2 \/ d = 3 \/ d = 4 \/ d = 5
                   \/ d = 6 \/ d = 7 \/ d = 8 \/ d = 9) by lia.
  destruct Hcases as [->|[->|[->|[->|[->|[->|[->|[->|[->| ->]]]]]]]]];
    reflexivity.
Qed.

Lemma with_two_decimals_is_fixed2 (negative : bool) (h : Z) :
  Spec.sign negative +++ Spec.with_two_decimals h = Py.fixed2 negative h.
Proof.
  unfold Spec.with_two_decimals, Py.fixed2, Spec.sign, Py.format_d.
  rewrite numeral_is_decimal_notation.
  pose proof (Z.mod_pos_bound h 100 ltac:(lia)) as Hm.
  rewrite !digit_is_digit_char.
  - replace (h mod 100 mod 10) with (h mod 10); [reflexivity|].
    pose proof (Z.div_mod h 100 ltac:(lia)) as Hdm.
    rewrite Hdm at 1.
    replace (100 * (h / 100) + h mod 100)
      with (h mod 100 + (10 * (h / 100)) * 10) by lia.
    apply Z.mod_add. lia.
  - apply Z.mod_pos_bound. lia.
  - split.
    + apply Z.div_pos; lia.
    + apply Z.div_lt_upper_bound; lia.
Qed.

(** The two decimal places of the specification are what ["%.2f"]
    prints, for every float. *)
Lemma two_decimals_is_format_prec2 (f : float) :
  Spec.two_decimals f = Py.format_prec2 f.
Proof.
  unfold Spec.two_decimals, Py.format_prec2.
  destruct (Prim2SF f) as [s|s| |s m e].
  - destruct s; reflexivity.
  - destruct s; reflexivity.
  - reflexivity.
  - rewrite nearest_hundredth_is_hundredths.
    apply with_two_decimals_is_fixed2.
Qed.

(** ** The coordinate transform of the point-cloud renderer *)

Section CoordinateTransform.
Import Py Np ImagingViewer.

Lemma float_of_xmin : float_of_Z xmin = Spec.xmin.
Proof. vm_compute. reflexivity. Qed.

Lemma float_of_ymin : float_of_Z ymin = Spec.ymin.
Proof. vm_compute. reflexivity. Qed.

Lemma set_col0_map (h : float -> float) (a : list point) :
  set_col0 a (map h (col0 a))
  = map (fun p : point => (h (fst (fst p)), snd (fst p), snd p)) a.
Proof.
  induction a as [|[[x y] z] a IH]; simpl.
  - reflexivity.
  - f_equal. exact IH.
Qed.

Lemma set_col1_map (h : float -> float) (a : list point) :
  set_col1 a (map h (col1 a))
  = map (fun p : point => (fst (fst p), h (snd (fst p)), snd p)) a.
Proof.
  induction a as [|[[x y] z] a IH]; simpl.
  - reflexivity.
  - f_equal. exact IH.
Qed.

Lemma to_raster_units_map (pts : list point) :
  to_raster_units pts = map raster_units pts.
Proof.
  unfold to_raster_units, array, sub_scalar, div_scalar.
  rewrite !map_map, set_col0_map, set_col1_map, map_map.
  apply map_ext. intros [[x y] z]. unfold raster_units. simpl.
  now rewrite float_of_xmin, float_of_ymin.
Qed.

Lemma center_of_raster_units (p : point) :
  center_of (raster_units p) = Spec.pixel_of p.
Proof. destruct p as [[x y] z]. reflexivity. Qed.

Lemma ofold_map {A B S} (body : S -> B -> outcome S) (g : A -> B)
      (xs : list A) (s : S) :
  ofold body (map g xs) s = ofold (fun s x => body s (g x)) xs s.
Proof.
  revert s. induction xs as [|x xs IH]; intros s; simpl.
  - reflexivity.
  - destruct (body s (g x)); simpl; auto.
Qed.

Lemma ofold_app {A S} (body : S -> A -> outcome S) (xs ys : list A) (s : S) :
  ofold body (xs ++ ys) s = obind (ofold body xs s) (ofold body ys).
Proof.
  revert s. induction xs as [|x xs IH]; intros s; simpl.
  - reflexivity.
  - destruct (body s x); simpl; auto.
Qed.

Lemma stamp_marker_raster_units (pc_image : image) (p : point) :
  stamp_marker pc_image (raster_units p) = stamp_point pc_image p.
Proof.
  unfold stamp_marker, stamp_point. now rewrite center_of_raster_units.
Qed.

Lemma render_points_fold (pts : list point) :
  render_points pts = ofold stamp_point pts (zeros imsize_y imsize_x).
Proof.
  unfold render_points. rewrite to_raster_units_map, ofold_map.
  generalize (zeros imsize_y imsize_x).
  induction pts as [|p pts IH]; intros img; simpl.
  - reflexivity.
  - rewrite stamp_marker_raster_units.
    destruct (stamp_point img p); simpl; auto.
Qed.

(** C1. The point-cloud renderer moves every point [(point_x, point_y,
    _)] of a frame to raster units by [(point_x - xmin) / resolution]
    and [(point_y - ymin) / resolution], and stamps its marker at the
    pixel whose column is the integer part of
    [(point_y - ymin) / resolution] and whose row is the integer part
    of [(point_x - xmin) / resolution]; the point [(xmin, ymin)] goes
    to the pixel [(0, 0)]. *)
Theorem point_cloud_pixel_transform (pts : list point) :
  to_raster_units pts
  = map (fun p : point => (Spec.pixel_y p, Spec.pixel_x p, snd p)) pts
  /\ map center_of (to_raster_units pts) = map Spec.pixel_of pts
  /\ render_points pts
     = ofold (fun pc_image p =>
                obind (Spec.pixel_of p) (fun center =>
                Cv2.circle pc_image center 1 (255, 0, 0)))
         pts (zeros 600 600)
  /\ (forall aux : float,
        Spec.pixel_of (Spec.xmin, Spec.ymin, aux) = Ok (0, 0)).
Proof.
  split; [|split; [|split]].
  - apply to_raster_units_map.
  - rewrite to_raster_units_map, map_map.
    apply map_ext. apply center_of_raster_units.
  - apply render_points_fold.
  - intros aux. vm_compute. reflexivity.
Qed.

End CoordinateTransform.

(** ** Rasters and the filled circle *)

Section Rasters.
Import Py Np Cv2.

Lemma paint_paint (a b : bool) (color p : pixel) :
  paint a color (paint b color p) = paint (a || b) color p.
Proof. destruct a, b; reflexivity. Qed.

Lemma paint_false (color p : pixel) : paint false color p = p.
Proof. reflexivity. Qed.

Lemma option_map_id_ext {A} (f : A -> A) (o : option A) :
  (forall a, f a = a) -> option_map f o = o.
Proof. intros Hf. destruct o; simpl; [now rewrite Hf | reflexivity]. Qed.

Lemma nth_error_hline_from (row : list pixel) (xl xr : Z) (color : pixel) :
  forall (j : Z) (n : nat),
    nth_error (hline_from j row xl xr color) n
    = option_map
        (paint ((xl <=? j + Z.of_nat n) && (j + Z.of_nat n <=? xr)) color)
        (nth_error row n).
Proof.
  induction row as [|p row IH]; intros j n.
  - destruct n; reflexivity.
  - destruct n as [|n]; simpl hline_from; simpl nth_error.
    + simpl. now rewrite Z.add_0_r.
    + rewrite IH. do 3 f_equal; f_equal; lia.
Qed.

Lemma nth_error_fill_from (img : image) (y xl xr : Z) (color : pixel) :
  forall (i : Z) (n : nat),
    nth_error (fill_from i img y xl xr color) n
    = option_map
        (fun row => if i + Z.of_nat n =? y
                    then hline_from 0 row xl xr color else row)
        (nth_error img n).
Proof.
  induction img as [|row img IH]; intros i n.
  - destruct n; reflexivity.
  - destruct n as [|n]; simpl fill_from; simpl nth_error.
    + simpl. now rewrite Z.add_0_r.
    + rewrite IH. replace (i + 1 + Z.of_nat n) with (i + Z.of_nat (S n)) by lia.
      reflexivity.
Qed.

Lemma get_fill (img : image) (y xl xr : Z) (color : pixel) (r c : Z) :
  get (fill img y xl xr color) r c
  = option_map (paint ((r =? y) && (xl <=? c) && (c <=? xr)) color)
      (get img r c).
Proof.
  unfold get, fill.
  destruct ((r <? 0) || (c <? 0)) eqn:Hneg; [reflexivity|].
  apply orb_false_elim in Hneg. destruct Hneg as [Hr Hc].
  apply Z.ltb_ge in Hr. apply Z.ltb_ge in Hc.
  rewrite nth_error_fill_from.
  destruct (nth_error img (Z.to_nat r)) as [row|]; simpl; [|reflexivity].
  rewrite Z2Nat.id by lia. simpl.
  destruct (r =? y); simpl.
  - rewrite nth_error_hline_from. rewrite Z2Nat.id by lia. reflexivity.
  - symmetry. apply option_map_id_ext. reflexivity.
Qed.

Lemma get_fill_if (img : image) (height y xl xr : Z) (color : pixel)
      (r c : Z) :
  get (fill_if img height y xl xr color) r c
  = option_map
      (paint (in_rows height y && ((r =? y) && (xl <=? c) && (c <=? xr)))
         color)
      (get img r c).
Proof.
  unfold fill_if. destruct (in_rows height y); simpl.
  - apply get_fill.
  - symmetry. apply option_map_id_ext. reflexivity.
Qed.

(** *** Dimensions *)

Lemma length_hline_from (row : list pixel) (xl xr : Z) (color : pixel) :
  forall j, List.length (hline_from j row xl xr color) = List.length row.
Proof.
  induction row as [|p row IH]; intros j; simpl; [reflexivity|].
  now rewrite IH.
Qed.

Lemma length_fill_from (img : image) (y xl xr : Z) (color : pixel) :
  forall i, List.length (fill_from i img y xl xr color) = List.length img.
Proof.
  induction img as [|row img IH]; intros i; simpl; [reflexivity|].
  now rewrite IH.
Qed.

Lemma widths_fill_from (img : image) (y xl xr : Z) (color : pixel) :
  forall i,
    map (@List.length pixel) (fill_from i img y xl xr color)
    = map (@List.length pixel) img.
Proof.
  induction img as [|row img IH]; intros i; simpl; [reflexivity|].
  rewrite IH. f_equal.
  destruct (i =? y); [apply length_hline_from | reflexivity].
Qed.

Lemma widths_fill (img : image) (y xl xr : Z) (color : pixel) :
  widths (fill img y xl xr color) = widths img.
Proof. apply widths_fill_from. Qed.

Lemma widths_fill_if (img : image) (height y xl xr : Z) (color : pixel) :
  widths (fill_if img height y xl xr color) = widths img.
Proof.
  unfold fill_if. destruct (in_rows height y); [apply widths_fill | reflexivity].
Qed.

Lemma widths_circle_spans (width height cx cy : Z) (inside : bool)
      (color : pixel) (st : scan) (img : image) :
  widths (circle_spans width height cx cy inside color st img) = widths img.
Proof.
  unfold circle_spans.
  repeat match goal with
         | |- context [if ?b then _ else _] => destruct b
         end;
    rewrite ?widths_fill, ?widths_fill_if; reflexivity.
Qed.

Lemma widths_circle_loop (width height cx cy : Z) (inside : bool)
      (color : pixel) :
  forall (fuel : nat) (st : scan) (img : image),
    widths (circle_loop fuel width height cx cy inside color st img)
    = widths img.
Proof.
  induction fuel as [|fuel IH]; intros st img; simpl; [reflexivity|].
  destruct (dy st <=? dx st); [|reflexivity].
  rewrite IH. apply widths_circle_spans.
Qed.

Lemma widths_Circle (img : image) (cx cy radius : Z) (color : pixel) :
  widths (Circle img cx cy radius color) = widths img.
Proof. apply widths_circle_loop. Qed.

Lemma widths_length (a b : image) :
  widths a = widths b -> List.length a = List.length b.
Proof.
  intros H. apply (f_equal (@List.length nat)) in H.
  unfold widths in H. now rewrite !length_map in H.
Qed.

Lemma widths_hd (a b : image) :
  widths a = widths b -> List.length (hd [] a) = List.length (hd [] b).
Proof.
  destruct a, b; simpl; intros H; try discriminate; [reflexivity|].
  now inversion H.
Qed.

Lemma rect_widths (img : image) :
  rect img <-> Forall (fun n => n = List.length (hd [] img)) (widths img).
Proof. unfold rect, widths. now rewrite Forall_map. Qed.

Lemma widths_rect (a b : image) :
  widths a = widths b -> rect a -> rect b.
Proof.
  intros H Ha. apply rect_widths. apply rect_widths in Ha.
  rewrite <- H, <- (widths_hd _ _ H). exact Ha.
Qed.

Lemma widths_zeros (h w : Z) :
  widths (zeros h w) = repeat (Z.to_nat w) (Z.to_nat h).
Proof.
  unfold widths, zeros.
  induction (Z.to_nat h) as [|n IH]; simpl; [reflexivity|].
  now rewrite IH, repeat_length.
Qed.

Lemma rect_zeros (h w : Z) : rect (zeros h w).
Proof.
  unfold rect, zeros.
  remember (repeat (0, 0, 0) (Z.to_nat w)) as row0.
  apply Forall_forall. intros row Hin.
  destruct (Z.to_nat h) as [|n]; [contradiction|].
  apply repeat_spec in Hin. subst row. reflexivity.
Qed.

Lemma get_zeros (h w r c : Z) (p : pixel) :
  get (zeros h w) r c = Some p -> p = (0, 0, 0).
Proof.
  unfold get, zeros.
  destruct ((r <? 0) || (c <? 0)); [discriminate|].
  destruct (nth_error _ (Z.to_nat r)) as [row|] eqn:Hrow; [|discriminate].
  apply nth_error_In, repeat_spec in Hrow. subst row.
  intros Hp. apply nth_error_In, repeat_spec in Hp. exact Hp.
Qed.

(** A pixel that can be read lies inside the raster. *)
Lemma get_bounds (img : image) (r c : Z) (p : pixel) :
  rect img -> get img r c = Some p ->
  0 <= r < Z.of_nat (List.length img)
  /\ 0 <= c < Z.of_nat (List.length (hd [] img)).
Proof.
  unfold get. intros Hrect.
  destruct ((r <? 0) || (c <? 0)) eqn:Hneg; [discriminate|].
  apply orb_false_elim in Hneg. destruct Hneg as [Hr Hc].
  apply Z.ltb_ge in Hr. apply Z.ltb_ge in Hc.
  destruct (nth_error img (Z.to_nat r)) as [row|] eqn:Hrow; [|discriminate].
  intros Hp.
  assert (Hlt : (Z.to_nat r < List.length img)%nat)
    by (apply nth_error_Some; congruence).
  assert (Hlt' : (Z.to_nat c < List.length row)%nat)
    by (apply nth_error_Some; congruence).
  apply nth_error_In in Hrow.
  unfold rect in Hrect. rewrite Forall_forall in Hrect.
  rewrite (Hrect _ Hrow) in Hlt'. lia.
Qed.

(** A position inside the raster can be read. *)
Lemma get_inside (img : image) (r c : Z) :
  rect img ->
  0 <= r < Z.of_nat (List.length img) ->
  0 <= c < Z.of_nat (List.length (hd [] img)) ->
  exists p, get img r c = Some p.
Proof.
  intros Hrect Hr Hc. unfold get.
  destruct ((r <? 0) || (c <? 0)) eqn:Hneg.
  { apply orb_true_iff in Hneg. rewrite !Z.ltb_lt in Hneg. lia. }
  destruct (nth_error img (Z.to_nat r)) as [row|] eqn:Hrow.
  - assert (Hlen : List.length row = List.length (hd [] img)).
    { unfold rect in Hrect. rewrite Forall_forall in Hrect.
      apply Hrect. eapply nth_error_In; eauto. }
    destruct (nth_error row (Z.to_nat c)) as [p|] eqn:Hp; [eauto|].
    apply nth_error_None in Hp. lia.
  - apply nth_error_None in Hrow. lia.
Qed.

(** *** Termination of the scan *)

(** The loop of [Circle] runs while [dy <= dx]; every turn increases
    [dy] and never increases [dx], so [dx - dy + 1] turns exhaust it and
    more fuel changes nothing. *)
Lemma circle_loop_fuel_enough (width height cx cy : Z) (inside : bool)
      (color : pixel) :
  forall (fuel more : nat) (st : scan) (img : image),
    dx st - dy st + 1 <= Z.of_nat fuel ->
    circle_loop (fuel + more) width height cx cy inside color st img
    = circle_loop fuel width height cx cy inside color st img.
Proof.
  induction fuel as [|fuel IH]; intros more st img Hfuel.
  - destruct more as [|more]; [reflexivity|]. simpl.
    replace (dy st <=? dx st) with false by lia. reflexivity.
  - simpl. destruct (dy st <=? dx st) eqn:Hturn; [|reflexivity].
    apply IH. unfold scan_next.
    destruct (err st + plus st <=? 0); simpl; lia.
Qed.

(** The fuel that [Circle] gives its loop is enough for every radius. *)
Lemma Circle_fuel_enough (img : image) (cx cy radius : Z) (color : pixel)
      (more : nat) :
  0 <= radius ->
  let height := Z.of_nat (List.length img) in
  let width := Z.of_nat (List.length (hd [] img)) in
  let inside := (radius <=? cx) && (cx <? width - radius)
                && (radius <=? cy) && (cy <? height - radius) in
  circle_loop (S (Z.to_nat radius) + more) width height cx cy inside color
    {| err := 0; dx := radius; dy := 0; plus := 1; minus := 2 * radius - 1 |}
    img
  = Circle img cx cy radius color.
Proof.
  intros Hradius height width inside. unfold Circle.
  apply circle_loop_fuel_enough. simpl dx. simpl dy. lia.
Qed.

(** *** The marker of radius 1 *)

(** With radius 1 the scan makes one turn: [dx = 1], [dy = 0]. *)
Lemma Circle_radius_1 (img : image) (cx cy : Z) (color : pixel) :
  Circle img cx cy 1 color
  = let height := Z.of_nat (List.length img) in
    let width := Z.of_nat (List.length (hd [] img)) in
    circle_spans width height cx cy
      ((1 <=? cx) && (cx <? width - 1) && (1 <=? cy) && (cy <? height - 1))
      color {| err := 0; dx := 1; dy := 0; plus := 1; minus := 1 |} img.
Proof. reflexivity. Qed.

Lemma clipped_span (r c y xl xr width height : Z) :
  0 <= r < height -> 0 <= c < width ->
  in_rows height y
  && ((r =? y) && (Z.max xl 0 <=? c) && (c <=? Z.min xr (width - 1)))
  = (r =? y) && (xl <=? c) && (c <=? xr).
Proof. unfold in_rows. intros Hr Hc. lia. Qed.

(** The marker of radius 1 is the centre and its four neighbours,
    clipped to the raster. *)
Lemma get_Circle_1 (img : image) (cx cy : Z) (color : pixel) (r c : Z) :
  rect img ->
  get (Circle img cx cy 1 color) r c
  = option_map (paint (Z.abs (r - cy) + Z.abs (c - cx) <=? 1) color)
      (get img r c).
Proof.
  intros Hrect. rewrite Circle_radius_1. cbv zeta.
  unfold circle_spans. cbn [dx dy].
  destruct (get img r c) as [p|] eqn:G.
  - destruct (get_bounds _ _ Hrect G) as [Hr Hc].
    destruct ((1 <=? cx) && _ && _ && _) eqn:Hin.
    + rewrite !get_fill, G. simpl option_map. rewrite !paint_paint.
      do 2 f_equal. clear G Hrect. lia.
    + destruct ((cx - 1 <? _) && _ && _ && _) eqn:Hnear.
      * destruct ((cx - 0 <? _) && _) eqn:Hcol;
          rewrite !get_fill_if, G; simpl option_map; rewrite !paint_paint;
          do 2 f_equal; rewrite !(@clipped_span _ _ _ _ _ _ _ Hr Hc);
          clear G Hrect; lia.
      * rewrite G. simpl.
        replace (Z.abs (r - cy) + Z.abs (c - cx) <=? 1) with false
          by (clear G Hrect; lia).
        reflexivity.
  - repeat match goal with
           | |- context [if ?b then _ else _] => destruct b
           end;
      rewrite ?get_fill, ?get_fill_if, G; reflexivity.
Qed.

(** A centre two pixels or more away from the raster leaves it as it
    is. *)
Lemma Circle_1_far (img : image) (cx cy : Z) (color : pixel) :
  cx <= -2 \/ Z.of_nat (List.length (hd [] img)) + 1 <= cx
  \/ cy <= -2 \/ Z.of_nat (List.length img) + 1 <= cy ->
  Circle img cx cy 1 color = img.
Proof.
  intros Hfar. rewrite Circle_radius_1. cbv zeta.
  unfold circle_spans. cbn [dx dy].
  replace ((1 <=? cx) && _ && _ && _) with false by lia.
  replace ((cx - 1 <? _) && _ && _ && _) with false by lia.
  reflexivity.
Qed.

End Rasters.

(** ** The point-cloud raster *)

Section PointCloudRaster.
Import Py Np Cv2 ImagingViewer.

(** What one marker does to the raster. *)
Lemma stamp_point_spec (img img' : image) (p : point) :
  rect img -> stamp_point img p = Ok img' ->
  exists col row,
    Spec.pixel_of p = Ok (col, row)
    /\ widths img' = widths img
    /\ forall r c,
        get img' r c
        = option_map (paint (in_marker col row r c) marker_color)
            (get img r c).
Proof.
  intros Hrect. unfold stamp_point.
  destruct (Spec.pixel_of p) as [[col row]|e]; simpl; [|discriminate].
  destruct (fits_int col && fits_int row); [|discriminate].
  intros Heq. injection Heq as <-.
  exists col, row. split; [reflexivity|]. split.
  - apply widths_Circle.
  - intros r c. now apply get_Circle_1.
Qed.

(** What the markers of a point list do to the raster. *)
Lemma stamp_points_spec (pts : list point) :
  forall img img',
    rect img -> ofold stamp_point pts img = Ok img' ->
    widths img' = widths img
    /\ (forall r c p, get img' r c = Some p ->
                      p = marker_color \/ get img r c = Some p)
    /\ (forall r c, get img r c = Some marker_color ->
                    get img' r c = Some marker_color)
    /\ (forall q col row r c p0,
           In q pts -> Spec.pixel_of q = Ok (col, row) ->
           in_marker col row r c = true -> get img r c = Some p0 ->
           get img' r c = Some marker_color).
Proof.
  induction pts as [|pt pts IH]; intros img img' Hrect Hfold.
  - simpl in Hfold. injection Hfold as <-.
    repeat split; auto. intros q col row r c p0 [].
  - simpl in Hfold.
    destruct (stamp_point img pt) as [img1|e] eqn:Hstamp; [|discriminate].
    simpl in Hfold.
    destruct (stamp_point_spec _ Hrect Hstamp)
      as (col1 & row1 & Hpix1 & Hw1 & Hget1).
    assert (Hrect1 : rect img1)
      by (eapply widths_rect; [symmetry; exact Hw1 | exact Hrect]).
    destruct (IH _ _ Hrect1 Hfold) as (Hw & Hcol & Hkeep & Hmark).
    split; [congruence|]. split; [|split].
    + intros r c p Hp. destruct (Hcol _ _ _ Hp) as [Hm|Hold]; [now left|].
      rewrite Hget1 in Hold.
      destruct (get img r c) as [p1|]; [|discriminate].
      simpl in Hold. injection Hold as <-. unfold paint.
      destruct (in_marker col1 row1 r c); [now left | now right].
    + intros r c Hp. apply Hkeep. rewrite Hget1, Hp. simpl.
      unfold paint. now destruct (in_marker col1 row1 r c).
    + intros q col row r c p0 [->|Hin] Hpix Hm Hp.
      * apply Hkeep. rewrite Hget1, Hp. simpl.
        rewrite Hpix in Hpix1. injection Hpix1 as <- <-.
        now rewrite Hm.
      * assert (Hsome : exists p1, get img1 r c = Some p1)
          by (rewrite Hget1, Hp; simpl; eauto).
        destruct Hsome as [p1 Hp1]. eapply Hmark; eauto.
Qed.

Lemma zeros_dims :
  List.length (zeros imsize_y imsize_x) = 600%nat
  /\ List.length (hd [] (zeros imsize_y imsize_x)) = 600%nat.
Proof. vm_compute. split; reflexivity. Qed.

Lemma widths_dims (img : image) :
  widths img = widths (zeros imsize_y imsize_x) ->
  List.length img = 600%nat /\ List.length (hd [] img) = 600%nat.
Proof.
  intros Hw. destruct zeros_dims as [Hh Hwd].
  rewrite (widths_length _ _ Hw), (widths_hd _ _ Hw). now split.
Qed.

(** C9. The raster that the point-cloud renderer produces from a
    non-empty frame is 600 by 600 and holds two pixel values only, the
    background [(0, 0, 0)] and the marker colour [(255, 0, 0)]; every
    pixel of the raster that a marker covers (the centre of a point and
    its four neighbours) is [(255, 0, 0)]. *)
Theorem point_cloud_raster_two_colours (pts : list point) (img : image) :
  pts <> [] ->
  render_points pts = Ok img ->
  shape img = (600, 600, 3)
  /\ (forall r c p, get img r c = Some p ->
                    p = (0, 0, 0) \/ p = (255, 0, 0))
  /\ (forall q col row r c,
         In q pts -> Spec.pixel_of q = Ok (col, row) ->
         Z.abs (r - row) + Z.abs (c - col) <= 1 ->
         0 <= r < 600 -> 0 <= c < 600 ->
         get img r c = Some (255, 0, 0)).
Proof.
  intros _ Hrender. rewrite render_points_fold in Hrender.
  pose proof (rect_zeros imsize_y imsize_x) as Hrect.
  destruct (stamp_points_spec _ Hrect Hrender)
    as (Hw & Hcol & _ & Hmark).
  destruct (widths_dims _ Hw) as [Hh Hwd].
  split; [|split].
  - unfold shape. now rewrite Hh, Hwd.
  - intros r c p Hp. destruct (Hcol _ _ _ Hp) as [Hm|Hold].
    + now right.
    + left. eapply get_zeros; eauto.
  - intros q col row r c Hin Hpix Hnear Hr Hc.
    destruct zeros_dims as [Hzh Hzw].
    destruct (@get_inside (zeros imsize_y imsize_x) r c Hrect) as [p0 Hp0];
      [rewrite Hzh; lia | rewrite Hzw; lia |].
    eapply Hmark; eauto.
    unfold in_marker. apply Z.leb_le. exact Hnear.
Qed.

Lemma stamp_point_ok (img : image) (p : point) (col row : Z) :
  Spec.pixel_of p = Ok (col, row) ->
  fits_int col && fits_int row = true ->
  stamp_point img p = Ok (Circle img col row 1 marker_color).
Proof.
  intros Hpix Hfit. unfold stamp_point. rewrite Hpix. simpl.
  now rewrite Hfit.
Qed.

Lemma render_points_total (pts : list point) :
  Forall stampable pts -> exists img, render_points pts = Ok img.
Proof.
  rewrite render_points_fold. generalize (zeros imsize_y imsize_x).
  induction pts as [|p pts IH]; intros img Hall.
  - exists img. reflexivity.
  - inversion Hall as [|? ? (col & row & Hpix & Hfit) Hrest]; subst.
    simpl. rewrite (stamp_point_ok img _ Hpix Hfit). simpl.
    now apply IH.
Qed.

Lemma point_cloud_raster_two_colours_witness :
  exists img,
    render_points [(10, 0, 0)%float] = Ok img
    /\ get img 100 300 = Some (255, 0, 0)
    /\ get img 99 300 = Some (255, 0, 0).
Proof.
  assert (Hpix : Spec.pixel_of (10, 0, 0)%float = Ok (300, 100))
    by (vm_compute; reflexivity).
  destruct (@render_points_total [(10, 0, 0)%float]) as [img Hrender].
  { constructor; [|constructor].
    exists 300, 100. split; [exact Hpix | reflexivity]. }
  exists img. split; [exact Hrender|].
  assert (Hne : [(10, 0, 0)%float] <> []) by discriminate.
  destruct (point_cloud_raster_two_colours Hne Hrender) as (_ & _ & Hmark).
  split.
  - apply (Hmark _ 300 100 100 300 (or_introl eq_refl) Hpix); lia.
  - apply (Hmark _ 300 100 99 300 (or_introl eq_refl) Hpix); lia.
Defined.

(** *** Points outside the imaging window *)

Lemma stamp_points_widths (pts : list point) :
  forall img img',
    ofold stamp_point pts img = Ok img' -> widths img' = widths img.
Proof.
  induction pts as [|p pts IH]; intros img img' Hfold; simpl in Hfold.
  - now injection Hfold as <-.
  - destruct (stamp_point img p) as [img1|e] eqn:Hstamp; [|discriminate].
    simpl in Hfold. rewrite (IH _ _ Hfold).
    unfold stamp_point in Hstamp.
    destruct (Spec.pixel_of p) as [[col row]|e]; simpl in Hstamp;
      [|discriminate].
    destruct (fits_int col && fits_int row); [|discriminate].
    injection Hstamp as <-. apply widths_Circle.
Qed.

(** A point whose pixel lies two pixels or more outside the 600 by 600
    raster is stamped without error and without effect. *)
Lemma stamp_point_far (img : image) (p : point) (col row : Z) :
  widths img = widths (zeros imsize_y imsize_x) ->
  Spec.pixel_of p = Ok (col, row) ->
  fits_int col && fits_int row = true ->
  col <= -2 \/ 601 <= col \/ row <= -2 \/ 601 <= row ->
  stamp_point img p = Ok img.
Proof.
  intros Hw Hpix Hfit Hfar.
  rewrite (stamp_point_ok img _ Hpix Hfit). f_equal.
  destruct (widths_dims _ Hw) as [Hh Hwd].
  apply Circle_1_far. rewrite Hh, Hwd. lia.
Qed.

(** C2, refuted as stated. The point [(-0.05, 0)] lies outside the
    window [[0, 60] x [-30, 30]]; its transformed coordinate [-0.5] is
    truncated to row 0, and its marker is drawn: the raster of the frame
    with the point differs from the raster of the frame without it. *)
Lemma outside_point_is_rasterized :
  Spec.outside_window outside_point = true
  /\ Spec.pixel_of outside_point = Ok (300, 0)
  /\ render_points [inside_point; outside_point]
     <> render_points [inside_point].
Proof.
  split; [vm_compute; reflexivity|].
  split; [vm_compute; reflexivity|].
  intros Heq.
  apply (f_equal (fun o => match o with
                           | Ok im => get im 0 300
                           | Raise _ => None
                           end)) in Heq.
  vm_compute in Heq. discriminate.
Qed.

(** Points far outside the window can also end the rendering of their
    frame with an exception: an infinite coordinate has no integer part,
    and a coordinate of 1e10 metres gives a pixel beyond the C [int]s
    that [cv2.circle] accepts. *)
Example unbounded_points_raise :
  render_points [inside_point; (infinity, 0, 0)%float]
  = Raise (OverflowError "cannot convert float infinity to integer")
  /\ render_points [inside_point; (1e10, 0, 0)%float]
     = Raise (CvArgumentError "center").
Proof. split; vm_compute; reflexivity. Qed.

End PointCloudRaster.

(** ** The trace monad *)

Section TraceMonad.
Import Py.

Lemma trace_bind {A B} (m : M A) (f : A -> M B) :
  trace (bind m f)
  = trace m ++ match result m with
               | Ok a => trace (f a)
               | Raise _ => []
               end.
Proof.
  destruct m as [t [a|e]]; simpl.
  - destruct (f a); reflexivity.
  - now rewrite app_nil_r.
Qed.

Lemma result_bind {A B} (m : M A) (f : A -> M B) :
  result (bind m f)
  = match result m with
    | Ok a => result (f a)
    | Raise e => Raise e
    end.
Proof.
  destruct m as [t [a|e]]; simpl; [|reflexivity].
  destruct (f a); reflexivity.
Qed.

Lemma bind_ret_l {A B} (a : A) (f : A -> M B) : bind (ret a) f = f a.
Proof. unfold bind, ret. destruct (f a); reflexivity. Qed.

Lemma bind_ok {A B} (t : list event) (a : A) (f : A -> M B) :
  bind (t, Ok a) f = (t ++ trace (f a), result (f a)).
Proof. unfold bind. destruct (f a); reflexivity. Qed.

Lemma bind_raise {A B} (t : list event) (e : error) (f : A -> M B) :
  bind (t, Raise e) f = (t, Raise e).
Proof. reflexivity. Qed.

Lemma bind_assoc {A B C} (m : M A) (f : A -> M B) (g : B -> M C) :
  bind (bind m f) g = bind m (fun a => bind (f a) g).
Proof.
  destruct m as [t [a|e]]; simpl; [|reflexivity].
  destruct (f a) as [t1 [b|e1]]; simpl; [|reflexivity].
  destruct (g b) as [t2 r2]. now rewrite app_assoc.
Qed.

Lemma bind_ext {A B} (m : M A) (f g : A -> M B) :
  (forall a, f a = g a) -> bind m f = bind m g.
Proof.
  intros Hfg. destruct m as [t [a|e]]; simpl; [|reflexivity].
  now rewrite Hfg.
Qed.

Lemma for_each_ext {A S} (xs : list A) (body body' : S -> A -> M S) :
  (forall s x, body s x = body' s x) ->
  forall s, for_each xs s body = for_each xs s body'.
Proof.
  intros Hbody. induction xs as [|x xs IH]; intros s; simpl.
  - reflexivity.
  - rewrite Hbody. apply bind_ext. exact IH.
Qed.

Lemma for_each_app {A S} (xs ys : list A) (body : S -> A -> M S) :
  forall s,
    for_each (xs ++ ys) s body
    = bind (for_each xs s body) (fun s' => for_each ys s' body).
Proof.
  induction xs as [|x xs IH]; intros s.
  - simpl app. cbn [for_each]. now rewrite bind_ret_l.
  - simpl app. cbn [for_each]. rewrite bind_assoc. apply bind_ext. exact IH.
Qed.

(** A property of the events of a loop follows from the same property
    of the events of its body. *)
Lemma for_each_trace_Forall {A S} (P : event -> Prop) (xs : list A)
      (body : S -> A -> M S) :
  (forall s x, Forall P (trace (body s x))) ->
  forall s, Forall P (trace (for_each xs s body)).
Proof.
  intros Hbody. induction xs as [|x xs IH]; intros s; simpl.
  - constructor.
  - rewrite trace_bind. apply Forall_app. split; [apply Hbody|].
    destruct (result (body s x)); [apply IH | constructor].
Qed.

End TraceMonad.

(** ** The sessions of [imaging_viewer] *)

Section Sessions.
Import Py Np RadarImageOverlay ImagingViewer.

Variable ImageData : Type.
Variable DisplayState : Type.
Variable display_new : DisplayState.
Variable display_call : DisplayState -> ImageData -> DisplayState * image.

(** *** Empty point clouds *)

Lemma point_cloud_frames_drop_empty (pcs : list RadarPointCloud) :
  point_cloud_frames ImageData (drop_empty pcs)
  = point_cloud_frames ImageData pcs.
Proof.
  induction pcs as [|pc pcs IH]; [reflexivity|].
  unfold drop_empty. simpl filter. unfold is_empty at 1.
  destruct (List.length (point_cloud pc) =? 0)%nat eqn:Hlen; simpl negb; cbv iota.
  - fold (drop_empty pcs). rewrite IH. simpl. now rewrite Hlen.
  - fold (drop_empty pcs). simpl. rewrite Hlen, IH. reflexivity.
Qed.

Lemma point_cloud_frames_all_empty (pcs : list RadarPointCloud) :
  point_cloud_frames ImageData (filter is_empty pcs) = ([], None).
Proof.
  induction pcs as [|pc pcs IH]; [reflexivity|].
  simpl filter. destruct (is_empty pc) eqn:Hpc; [|exact IH].
  simpl. unfold is_empty in Hpc. now rewrite Hpc.
Qed.

Lemma point_cloud_frames_skip (pcs1 pcs2 : list RadarPointCloud)
      (pc : RadarPointCloud) :
  is_empty pc = true ->
  point_cloud_frames ImageData (pcs1 ++ pc :: pcs2)
  = point_cloud_frames ImageData (pcs1 ++ pcs2).
Proof.
  intros Hpc. rewrite <- (point_cloud_frames_drop_empty (pcs1 ++ pc :: pcs2)).
  rewrite <- (point_cloud_frames_drop_empty (pcs1 ++ pcs2)).
  unfold drop_empty. rewrite !filter_app. simpl filter.
  now rewrite Hpc.
Qed.

Lemma convert_point_cloud_stream_without_empty (w : world ImageData)
      (path : string) :
  convert_point_cloud_stream (without_empty w) path
  = convert_point_cloud_stream w path.
Proof.
  unfold convert_point_cloud_stream, RadarDataStreamer. simpl.
  destruct (file_exists w path); [|reflexivity].
  apply point_cloud_frames_drop_empty.
Qed.

Lemma open_stream_without_empty (w : world ImageData) (io_path : IOPath) :
  open_stream display_new display_call (without_empty w) io_path
  = open_stream display_new display_call w io_path.
Proof.
  unfold open_stream, exists_. simpl.
  destruct (image_pbs_path io_path) as [path|].
  - destruct (file_exists w path); reflexivity.
  - destruct (pc_pbs_path io_path) as [path|]; [|reflexivity].
    destruct (file_exists w path); simpl; [|reflexivity].
    now rewrite convert_point_cloud_stream_without_empty.
Qed.

Lemma main_without_empty (w : world ImageData) (args : Args) :
  main display_new display_call (without_empty w) args
  = main display_new display_call w args.
Proof.
  unfold main. f_equal. apply for_each_ext. intros a io_path.
  unfold session. now rewrite open_stream_without_empty.
Qed.

(** C3. A record whose decoded point cloud is empty yields no frame:
    the frame stream is the one of the record stream without that
    record, a whole run of the tool is, event for event, the run on
    the data set without its empty records, and a session over a file
    of empty records only performs no event at all, neither on the
    display nor on the video writer. *)
Theorem empty_point_clouds_are_skipped :
  (forall pcs1 pcs2 frame_id timestamp,
      point_cloud_frames ImageData
        (pcs1 ++ empty_frame frame_id timestamp :: pcs2)
      = point_cloud_frames ImageData (pcs1 ++ pcs2))
  /\ (forall w args,
         main display_new display_call w args
         = main display_new display_call (without_empty w) args)
  /\ (forall pcs args artist path output,
         session display_new display_call
           (world_of_points ImageData (filter is_empty pcs)) args artist
           (point_cloud_path path output)
         = ([], Ok artist)).
Proof.
  split; [|split].
  - intros pcs1 pcs2 frame_id timestamp.
    now apply point_cloud_frames_skip.
  - intros w args. symmetry. apply main_without_empty.
  - intros pcs args artist path output.
    unfold session, open_stream, exists_, convert_point_cloud_stream,
      RadarDataStreamer. simpl.
    rewrite point_cloud_frames_all_empty. reflexivity.
Qed.

(** *** The video writer *)

Lemma constructions_app (t1 t2 : list event) :
  constructions (t1 ++ t2) = constructions t1 ++ constructions t2.
Proof. apply flat_map_app. Qed.

Lemma overlay_metadata_ok (raw : raw_data ImageData) (im : frame)
      (flag : bool) :
  overlay_metadata raw im flag
  = Ok (draw_timestamp im
          ((format_d (frame_id_of raw) +++ ":")
             +++ format_2_2f (timestamp_of raw))).
Proof. reflexivity. Qed.

(** Without an output directory a frame goes to the display only. *)
Lemma process_frame_display_only (args : Args) (io_path : IOPath)
      (v : vars) (item : raw_data ImageData * frame) :
  output_dir args = None -> video_writer v = None ->
  exists t v',
    process_frame args io_path v item = (t, Ok v')
    /\ constructions t = [] /\ video_writer v' = None.
Proof.
  intros Hout Hvw. destruct item as [raw im].
  unfold process_frame. cbv beta iota.
  destruct (shape (pixels im)) as [[h wd] ch].
  rewrite overlay_metadata_ok, Hout, Hvw.
  destruct (artist v) as [a|]; simpl; eexists; eexists;
    (split; [reflexivity|split; reflexivity]).
Qed.

(** With an output directory the first frame of a session constructs
    the video writer with the width and the height of the frame; the
    next statement, [stack.enter_context], finds no [stack]. *)
Lemma process_frame_first (args : Args) (io_path : IOPath) (v : vars)
      (raw : raw_data ImageData) (im : frame) (dir : string) :
  output_dir args = Some dir -> video_writer v = None ->
  process_frame args io_path v (raw, im)
  = ((match artist v with
      | None => [Imshow (shape (pixels im))]
      | Some _ => []
      end)
       ++ [VideoWriterNew (output_path io_path)
             (snd (fst (shape (pixels im)))) (fst (fst (shape (pixels im))))
             (frame_rate args) (quality_factor args)],
     Raise (NameError "stack")).
Proof.
  intros Hout Hvw. unfold process_frame. cbv beta iota.
  destruct (shape (pixels im)) as [[h wd] ch] eqn:Hshape.
  rewrite overlay_metadata_ok, Hout, Hvw.
  cbn [lift bind ret emit app pixels draw_timestamp]. rewrite Hshape.
  destruct (artist v) as [a|]; reflexivity.
Qed.

Lemma frames_display_only (args : Args) (io_path : IOPath)
      (frames : list (raw_data ImageData * frame)) :
  output_dir args = None ->
  forall v, video_writer v = None ->
    exists t v',
      for_each frames v (process_frame args io_path) = (t, Ok v')
      /\ constructions t = [] /\ video_writer v' = None.
Proof.
  intros Hout. induction frames as [|item frames IH]; intros v Hvw.
  - exists [], v. repeat split; auto.
  - destruct (@process_frame_display_only args io_path v item Hout Hvw)
      as (t1 & v1 & Hstep & Hc1 & Hvw1).
    destruct (IH v1 Hvw1) as (t2 & v2 & Hrest & Hc2 & Hvw2).
    exists (t1 ++ t2), v2. cbn [for_each].
    rewrite Hstep, bind_ok, Hrest. simpl.
    rewrite constructions_app, Hc1, Hc2. repeat split; auto.
Qed.

Lemma session_display_only (w : world ImageData) (args : Args)
      (artist0 : option (Z * Z * Z)) (io_path : IOPath) :
  output_dir args = None ->
  constructions
    (trace (session display_new display_call w args artist0 io_path)) = [].
Proof.
  intros Hout. unfold session.
  destruct (open_stream display_new display_call w io_path)
    as [t0 [g|e]] eqn:Hopen.
  - assert (Ht0 : t0 = []).
    { unfold open_stream in Hopen.
      repeat match type of Hopen with
             | context [match ?x with _ => _ end] => destruct x
             end; now inversion Hopen. }
    subst t0. rewrite bind_ok. simpl app.
    set (v0 := {| artist := artist0; video_writer := None |}).
    destruct (@frames_display_only args io_path (fst g) Hout v0 eq_refl)
      as (t & v' & Hloop & Hc & _).
    unfold for_gen. rewrite Hloop, bind_ok.
    destruct (snd g); simpl; now rewrite ?app_nil_r.
  - assert (Ht0 : t0 = []).
    { unfold open_stream in Hopen.
      repeat match type of Hopen with
             | context [match ?x with _ => _ end] => destruct x
             end; now inversion Hopen. }
    subst t0. reflexivity.
Qed.

Lemma open_stream_silent (w : world ImageData) (io_path : IOPath) :
  trace (open_stream display_new display_call w io_path) = [].
Proof.
  unfold open_stream.
  repeat match goal with
         | |- context [match ?x with _ => _ end] => destruct x
         end; reflexivity.
Qed.

Lemma session_constructions (w : world ImageData) (args : Args)
      (artist0 : option (Z * Z * Z)) (io_path : IOPath) :
  constructions
    (trace (session display_new display_call w args artist0 io_path))
  = first_frame_construction args io_path (opened_frames display_new display_call w io_path).
Proof.
  destruct (output_dir args) as [dir|] eqn:Hout.
  - unfold first_frame_construction, opened_frames, session.
    rewrite Hout.
    pose proof (open_stream_silent w io_path) as Hsilent.
    destruct (open_stream display_new display_call w io_path)
      as [t0 [g|e]]; simpl in Hsilent; subst t0; [|reflexivity].
    rewrite bind_ok. simpl app. simpl result.
    destruct g as [[|[raw im] frames] ending]; simpl fst.
    + unfold for_gen. simpl. destruct ending; reflexivity.
    + unfold for_gen. simpl fst. cbn [for_each].
      rewrite (@process_frame_first args io_path
                 {| artist := artist0; video_writer := None |}
                 raw im dir Hout eq_refl).
      rewrite !bind_raise. cbn [trace fst artist].
      rewrite constructions_app.
      destruct (shape (pixels im)) as [[h wd] ch]. cbn [fst snd].
      now destruct artist0.
  - rewrite session_display_only by exact Hout.
    unfold first_frame_construction. now rewrite Hout.
Qed.

Lemma main_display_only (w : world ImageData) (args : Args) :
  output_dir args = None ->
  constructions (trace (main display_new display_call w args)) = [].
Proof.
  intros Hout. unfold main. rewrite trace_bind.
  rewrite constructions_app.
  assert (Hloop : forall paths a,
             constructions
               (trace (for_each paths a
                         (session display_new display_call w args))) = []).
  { induction paths as [|io_path paths IH]; intros a; [reflexivity|].
    cbn [for_each]. rewrite trace_bind, constructions_app.
    rewrite session_display_only by exact Hout.
    destruct (result _); [apply IH | reflexivity]. }
  rewrite Hloop.
  destruct (result _); reflexivity.
Qed.

(** C5. In every session the video writer is constructed lazily: not
    at all when the stream yields no frame or when no output directory
    is given, and otherwise exactly once, on the first frame that the
    stream yields, with the output path of the session and the width
    and the height of that frame. A run without an output directory
    constructs no video writer. *)
Theorem video_writer_constructed_on_first_frame :
  (forall w args artist0 io_path,
      constructions
        (trace (session display_new display_call w args artist0 io_path))
      = match output_dir args,
              opened_frames display_new display_call w io_path with
        | Some _, (_, im_rgb) :: _ =>
            let '(im_height, im_width, _) := shape (pixels im_rgb) in
            [(output_path io_path, im_width, im_height,
              frame_rate args, quality_factor args)]
        | _, _ => []
        end)
  /\ (forall w args,
         output_dir args = None ->
         constructions (trace (main display_new display_call w args)) = []).
Proof.
  split.
  - intros w args artist0 io_path. apply session_constructions.
  - intros w args. apply main_display_only.
Qed.

End Sessions.

Section Batch.
Import Py Np RadarImageOverlay ImagingViewer.

Variable ImageData : Type.
Variable DisplayState : Type.
Variable display_new : DisplayState.
Variable display_call : DisplayState -> ImageData -> DisplayState * image.



End Batch.



(** A session with an output directory: the video writer is constructed
    on the first frame, and the statement that follows the construction
    raises [NameError], since [main] binds no [stack]. *)
Lemma session_with_output_directory :
  ImagingViewer.main tt Samples.display Samples.only_b
    (Samples.args_of ["b"] (Some "out") false)
  = ([Imshow (2, 3, 3); VideoWriterNew (Some "out/b.mp4") 3 2 10 23],
     Py.Raise (Py.NameError "stack")).
Proof. vm_compute. reflexivity. Qed.

Lemma video_writer_constructed_on_first_frame_witness :
  constructions
    (trace (ImagingViewer.main tt Samples.display Samples.only_b
              (Samples.args_of ["b"] None false))) = [].
Proof.
  exact (proj2 (@video_writer_constructed_on_first_frame unit unit tt
                  Samples.display)
           Samples.only_b (Samples.args_of ["b"] None false) eq_refl).
Defined.

(** ** The overlay stage *)

Section Overlay.
Import Py Np RadarImageOverlay.

Variable ImageData : Type.

Lemma code_label_is_spec_label (raw : raw_data ImageData) :
  (format_d (frame_id_of raw) +++ ":") +++ format_2_2f (timestamp_of raw)
  = Spec.frame_label (frame_id_of raw) (timestamp_of raw).
Proof.
  unfold Spec.frame_label.
  rewrite format_2_2f_no_padding, append_assoc.
  rewrite two_decimals_is_format_prec2, numeral_is_decimal_notation.
  reflexivity.
Qed.


(** In [point_cloud_viewer] neither [draw_timestamp] nor
    [draw_grid_line] is imported: its [overlay_metadata], which the
    tool never calls, raises before it stamps anything. *)
Lemma point_cloud_viewer_overlay_raises (raw : raw_data ImageData)
      (im_rgb : frame) :
  PointCloudViewer.overlay_metadata raw im_rgb false
  = Raise (NameError "draw_timestamp").
Proof. reflexivity. Qed.

(** C8, amended. [overlay_metadata] of [imaging_viewer] stamps the
    label and nothing else whether [show_range_marker] is enabled or
    disabled (the default): the block that draws the range markers is a
    string literal, so the flag has no effect, and the pixels and the
    earlier stamps of the frame are kept. *)
Theorem overlay_ignores_range_marker (raw : raw_data ImageData)
        (im_rgb : frame) (show_range_marker : bool) :
  ImagingViewer.overlay_metadata raw im_rgb show_range_marker
  = ImagingViewer.overlay_metadata raw im_rgb false
  /\ exists out,
      ImagingViewer.overlay_metadata raw im_rgb show_range_marker = Ok out
      /\ pixels out = pixels im_rgb
      /\ stamps out
         = stamps im_rgb
           ++ [Label (Spec.frame_label (frame_id_of raw)
                        (timestamp_of raw))].
Proof.
  split; [reflexivity|].
  eexists. split.
  - unfold ImagingViewer.overlay_metadata.
    rewrite code_label_is_spec_label. reflexivity.
  - split; reflexivity.
Qed.

End Overlay.

(** C8, refuted as stated. With the range-grid overlay enabled on an
    image frame that has an extrinsic and a geometric model,
    [overlay_metadata] stamps the label alone: no distance marker is
    drawn. *)
Lemma enabled_range_marker_draws_no_grid :
  exists out,
    ImagingViewer.overlay_metadata (RawImage Samples.image_record)
      (RadarImageOverlay.bare (Np.zeros 2 3)) true = Py.Ok out
    /\ RadarImageOverlay.stamps out = [RadarImageOverlay.Label "42:3.14"]
    /\ forall center pixels_per_meter separation,
        ~ In (RadarImageOverlay.GridLine center pixels_per_meter separation)
            (RadarImageOverlay.stamps out).
Proof.
  eexists. split; [vm_compute; reflexivity|]. split; [reflexivity|].
  intros center pixels_per_meter separation [Heq|[]]. discriminate.
Qed.

(** ** The names of the output videos *)

Section OutputNames.
Import Py.

(** C7, amended. With an output directory given, [imaging_viewer]
    names the output video of a radar name [<radar-name>.mp4] under the
    output directory, in image mode and in point-cloud mode alike;
    [point_cloud_viewer] derives [<radar-name>_points.mp4] under the
    output directory. Without an output directory there is no output
    path. *)
Theorem output_video_names :
  (forall args name,
      ImagingViewer.output_path (ImagingViewer.io_path_of args name)
      = option_map (fun dir => Spec.output_video dir name false)
          (ImagingViewer.output_dir args))
  /\ (forall args name,
         snd (PointCloudViewer.io_path_of args name)
         = option_map (fun dir => Spec.output_video dir name true)
             (PointCloudViewer.output_dir args)).
Proof.
  split; intros args name.
  - unfold ImagingViewer.io_path_of, Spec.output_video.
    destruct (ImagingViewer.point_cloud_flag args),
      (ImagingViewer.output_dir args); reflexivity.
  - unfold PointCloudViewer.io_path_of, Spec.output_video.
    destruct (PointCloudViewer.output_dir args); reflexivity.
Qed.

(** C7, refuted as stated. In point-cloud mode [imaging_viewer] names
    the output video of the radar [r] [out/r.mp4], not
    [out/r_points.mp4]. *)
Lemma point_cloud_mode_output_is_not_points_mp4 :
  ImagingViewer.output_path
    (ImagingViewer.io_path_of (Samples.args_of ["r"] (Some "out") true) "r")
  = Some "out/r.mp4"
  /\ Spec.output_video "out" "r" true = "out/r_points.mp4"
  /\ ImagingViewer.output_path
       (ImagingViewer.io_path_of
          (Samples.args_of ["r"] (Some "out") true) "r")
     <> Some (Spec.output_video "out" "r" true).
Proof.
  split; [reflexivity|]. split; [reflexivity|]. discriminate.
Qed.

End OutputNames.

(** ** [point_cloud_viewer] *)

Section Viewer.
Import Py Np PointCloudViewer.

Variable ImageData : Type.

Lemma plot_point_cloud_spec (pc : RadarPointCloud) :
  plot_point_cloud pc
  = (if is_empty pc then []
     else [Scatter (col0 (point_cloud pc)) (col1 (point_cloud pc)); Show],
     Ok tt).
Proof.
  unfold plot_point_cloud, is_empty.
  destruct (List.length (point_cloud pc) =? 0)%nat; reflexivity.
Qed.

Lemma plot_loop_spec (pcs : list RadarPointCloud) :
  for_each pcs tt (fun _ pc => plot_point_cloud pc) = (plots_of pcs, Ok tt).
Proof.
  induction pcs as [|pc pcs IH]; [reflexivity|].
  cbn [for_each]. rewrite plot_point_cloud_spec, bind_ok, IH.
  reflexivity.
Qed.

Lemma convert_point_cloud_stream_spec (w : world ImageData) (path : string) :
  convert_point_cloud_stream w path
  = if file_exists w path then (plots_of (points_at w path), Ok tt)
    else ([], Raise (NotFoundError path)).
Proof.
  unfold convert_point_cloud_stream, RadarDataStreamer, lift.
  destruct (file_exists w path).
  - rewrite bind_ok. simpl. now rewrite plot_loop_spec.
  - reflexivity.
Qed.







End Viewer.



(** ** The content of the point-cloud raster *)

Section RasterContent.
Import Py Np Cv2 ImagingViewer.

Lemma covered_cons (p : point) (pts : list point) (col row r c : Z) :
  Spec.pixel_of p = Ok (col, row) ->
  covered (p :: pts) r c = in_marker col row r c || covered pts r c.
Proof. intros Hpix. unfold covered. simpl. now rewrite Hpix. Qed.

(** The raster after the markers of a point list: the marker colour on
    the covered pixels, the earlier pixel elsewhere. *)
Lemma stamp_points_get (pts : list point) :
  forall img img',
    rect img -> ofold stamp_point pts img = Ok img' ->
    forall r c,
      get img' r c
      = option_map (paint (covered pts r c) marker_color) (get img r c).
Proof.
  induction pts as [|pt pts IH]; intros img img' Hrect Hfold r c.
  - simpl in Hfold. injection Hfold as <-.
    symmetry. apply option_map_id_ext. reflexivity.
  - simpl in Hfold.
    destruct (stamp_point img pt) as [img1|e] eqn:Hstamp; [|discriminate].
    simpl in Hfold.
    destruct (@stamp_point_spec _ _ _ Hrect Hstamp)
      as (col & row & Hpix & Hw & Hget).
    assert (Hrect1 : rect img1)
      by (eapply widths_rect; [symmetry; exact Hw | exact Hrect]).
    rewrite (IH _ _ Hrect1 Hfold), Hget, (@covered_cons pt pts col row r c Hpix).
    destruct (get img r c); simpl; [|reflexivity].
    now rewrite paint_paint, orb_comm.
Qed.

Lemma get_zeros_inside (r c : Z) :
  get (zeros imsize_y imsize_x) r c
  = if inside_raster r c then Some (0, 0, 0) else None.
Proof.
  pose proof (rect_zeros imsize_y imsize_x) as Hrect.
  destruct zeros_dims as [Hh Hw].
  unfold inside_raster.
  change imsize_y with 600. change imsize_x with 600.
  destruct ((0 <=? r) && (r <? 600) && (0 <=? c) && (c <? 600)) eqn:Hin.
  - destruct (@get_inside (zeros 600 600) r c Hrect) as [p Hp].
    + change (zeros 600 600) with (zeros imsize_y imsize_x).
      rewrite Hh. lia.
    + change (zeros 600 600) with (zeros imsize_y imsize_x).
      rewrite Hw. lia.
    + rewrite Hp. f_equal. eapply get_zeros; eauto.
  - destruct (get (zeros 600 600) r c) as [p|] eqn:Hp; [|reflexivity].
    destruct (@get_bounds _ _ _ _ Hrect Hp) as [Hr Hc].
    change (zeros 600 600) with (zeros imsize_y imsize_x) in Hr, Hc.
    rewrite Hh in Hr. rewrite Hw in Hc. lia.
Qed.

(** X1. The raster of a point-cloud frame is the union of the markers
    of its points: a pixel of the 600 by 600 raster is [(255, 0, 0)] when
    it is the pixel of a point of the frame or one of its four
    neighbours, and [(0, 0, 0)] otherwise; there is no pixel outside the
    600 by 600 positions. *)
Theorem raster_is_union_of_markers (pts : list point) (img : image) :
  render_points pts = Ok img ->
  forall r c,
    get img r c
    = if inside_raster r c
      then Some (if covered pts r c then (255, 0, 0) else (0, 0, 0))
      else None.
Proof.
  intros Hrender r c. rewrite render_points_fold in Hrender.
  rewrite (@stamp_points_get pts _ _ (rect_zeros imsize_y imsize_x) Hrender).
  rewrite get_zeros_inside.
  destruct (inside_raster r c); [|reflexivity].
  simpl. unfold paint. now destruct (covered pts r c).
Qed.

Lemma raster_is_union_of_markers_witness :
  exists img,
    render_points [inside_point] = Ok img
    /\ get img 100 300 = Some (255, 0, 0)
    /\ get img 101 301 = Some (0, 0, 0)
    /\ get img 600 300 = None.
Proof.
  destruct (@render_points_total [inside_point]) as [img Hrender].
  { constructor; [|constructor].
    exists 300, 100. split; [vm_compute; reflexivity | reflexivity]. }
  exists img. split; [exact Hrender|].
  pose proof (@raster_is_union_of_markers _ _ Hrender) as Hget.
  split; [|split].
  - rewrite Hget. vm_compute. reflexivity.
  - rewrite Hget. vm_compute. reflexivity.
  - rewrite Hget. vm_compute. reflexivity.
Defined.

(** *** When the rendering succeeds *)

Lemma stamp_points_stampable (pts : list point) :
  forall img img',
    ofold stamp_point pts img = Ok img' -> Forall stampable pts.
Proof.
  induction pts as [|p pts IH]; intros img img' Hfold; [constructor|].
  simpl in Hfold.
  destruct (stamp_point img p) as [img1|e] eqn:Hstamp; [|discriminate].
  simpl in Hfold. constructor; [|eapply IH; eauto].
  unfold stamp_point in Hstamp.
  destruct (Spec.pixel_of p) as [[col row]|e] eqn:Hpix; simpl in Hstamp;
    [|discriminate].
  destruct (fits_int col && fits_int row) eqn:Hfit; [|discriminate].
  exists col, row. now split.
Qed.

Lemma int_of_float_error (f : float) (e : error) :
  int_of_float f = Raise e -> render_error e.
Proof.
  unfold int_of_float.
  destruct (Prim2SF f); intros Heq; inversion Heq; exact I.
Qed.

Lemma stamp_point_error (img : image) (p : point) (e : error) :
  stamp_point img p = Raise e -> render_error e.
Proof.
  unfold stamp_point, Spec.pixel_of.
  destruct (int_of_float (Spec.pixel_x p)) as [col|e1] eqn:Hx; simpl.
  - destruct (int_of_float (Spec.pixel_y p)) as [row|e2] eqn:Hy; simpl.
    + destruct (fits_int col && fits_int row); simpl.
      * discriminate.
      * intros Heq. inversion Heq. exact I.
    + intros Heq. inversion Heq. subst. eapply int_of_float_error; eauto.
  - intros Heq. inversion Heq. subst. eapply int_of_float_error; eauto.
Qed.

Lemma render_points_error (pts : list point) (e : error) :
  render_points pts = Raise e -> render_error e.
Proof.
  rewrite render_points_fold. generalize (zeros imsize_y imsize_x).
  induction pts as [|p pts IH]; intros img; simpl; [discriminate|].
  destruct (stamp_point img p) as [img1|e1] eqn:Hstamp; simpl.
  - apply IH.
  - intros Heq. inversion Heq. subst. eapply stamp_point_error; eauto.
Qed.

(** X2. The rendering of a point list returns a raster exactly when
    every point has finite transformed coordinates whose integer parts
    fit a C [int]; otherwise it ends with the [ValueError] or the
    [OverflowError] of [int], or with the refusal of the centre by
    [cv2.circle], and with no other exception. *)
Theorem render_points_succeeds_iff (pts : list point) :
  ((exists img, render_points pts = Ok img) <-> Forall stampable pts)
  /\ (forall e, render_points pts = Raise e -> render_error e).
Proof.
  split; [split|].
  - intros [img Hrender]. rewrite render_points_fold in Hrender.
    eapply stamp_points_stampable; eauto.
  - apply render_points_total.
  - apply render_points_error.
Qed.

(** *** Rasters are determined by their pixels *)

Lemma rows_ext (a b : list pixel) :
  (forall n, nth_error a n = nth_error b n) -> a = b.
Proof. apply nth_error_ext. Qed.

Lemma image_ext (a b : image) :
  List.length a = List.length b ->
  (forall r c, get a r c = get b r c) ->
  (forall n ra rb, nth_error a n = Some ra -> nth_error b n = Some rb ->
                   List.length ra = List.length rb) ->
  a = b.
Proof.
  intros Hlen Hget Hrows. apply nth_error_ext. intros n.
  destruct (nth_error a n) as [ra|] eqn:Ha.
  - destruct (nth_error b n) as [rb|] eqn:Hb.
    + f_equal. apply nth_error_ext. intros k.
      specialize (Hget (Z.of_nat n) (Z.of_nat k)). unfold get in Hget.
      replace ((Z.of_nat n <? 0) || (Z.of_nat k <? 0)) with false in Hget
        by lia.
      now rewrite !Nat2Z.id, Ha, Hb in Hget.
    + apply nth_error_None in Hb.
      assert (n < List.length a)%nat by (apply nth_error_Some; congruence).
      lia.
  - destruct (nth_error b n) as [rb|] eqn:Hb; [|reflexivity].
    apply nth_error_None in Ha.
    assert (n < List.length b)%nat by (apply nth_error_Some; congruence).
    lia.
Qed.

Lemma widths_nth (a b : image) (n : nat) (ra rb : list pixel) :
  widths a = widths b ->
  nth_error a n = Some ra -> nth_error b n = Some rb ->
  List.length ra = List.length rb.
Proof.
  intros Hw Ha Hb.
  assert (Hna : nth_error (widths a) n = Some (List.length ra))
    by (unfold widths; now rewrite nth_error_map, Ha).
  assert (Hnb : nth_error (widths b) n = Some (List.length rb))
    by (unfold widths; now rewrite nth_error_map, Hb).
  rewrite Hw in Hna. congruence.
Qed.

Lemma covered_same_points (pts pts' : list point) (r c : Z) :
  (forall q, In q pts <-> In q pts') ->
  covered pts r c = covered pts' r c.
Proof.
  intros Hsame. apply eq_iff_eq_true. unfold covered.
  rewrite !existsb_exists.
  split; intros (q & Hin & Hq); exists q; (split; [now apply Hsame | exact Hq]).
Qed.

(** X3. The raster of a frame depends on the set of its points only:
    two point lists with the same points, in any order and with any
    repetitions, are rendered to the same raster. *)
Theorem raster_depends_on_point_set (pts pts' : list point) (img : image) :
  (forall q, In q pts <-> In q pts') ->
  render_points pts = Ok img ->
  render_points pts' = Ok img.
Proof.
  intros Hsame Hrender.
  assert (Hall : Forall stampable pts').
  { rewrite render_points_fold in Hrender.
    pose proof (@stamp_points_stampable _ _ _ Hrender) as Hpts.
    rewrite Forall_forall in *. intros q Hq. apply Hpts. now apply Hsame. }
  destruct (@render_points_total pts' Hall) as [img' Hrender'].
  rewrite Hrender'. f_equal.
  pose proof Hrender as Hfold. pose proof Hrender' as Hfold'.
  rewrite render_points_fold in Hfold, Hfold'.
  pose proof (@stamp_points_widths _ _ _ Hfold) as Hw.
  pose proof (@stamp_points_widths _ _ _ Hfold') as Hw'.
  assert (Hww : widths img' = widths img) by congruence.
  apply image_ext.
  - now apply widths_length.
  - intros r c.
    rewrite (@stamp_points_get pts' _ _ (rect_zeros _ _) Hfold').
    rewrite (@stamp_points_get pts _ _ (rect_zeros _ _) Hfold).
    now rewrite (@covered_same_points pts pts' r c Hsame).
  - intros n ra rb. now apply widths_nth.
Qed.

Lemma raster_depends_on_point_set_witness :
  exists img,
    render_points [inside_point; outside_point] = Ok img
    /\ render_points [outside_point; inside_point; outside_point] = Ok img.
Proof.
  destruct (@render_points_total [inside_point; outside_point])
    as [img Hrender].
  { repeat constructor.
    - exists 300, 100. split; [vm_compute; reflexivity | reflexivity].
    - exists 300, 0. split; [vm_compute; reflexivity | reflexivity]. }
  exists img. split; [exact Hrender|].
  refine (@raster_depends_on_point_set [inside_point; outside_point]
            [outside_point; inside_point; outside_point] img _ Hrender).
  intros q. simpl. tauto.
Defined.

End RasterContent.

(** ** Points outside the imaging window *)

Section OutsideWindow.
Import Py Np Cv2 ImagingViewer.

Lemma marker_in_raster_spec (col row : Z) :
  marker_in_raster col row = true
  <-> (0 <= row < 600 /\ -1 <= col <= 600)
      \/ (0 <= col < 600 /\ -1 <= row <= 600).
Proof.
  unfold marker_in_raster, inside_raster.
  change imsize_y with 600. change imsize_x with 600.
  rewrite !orb_true_iff, !andb_true_iff, !Z.leb_le, !Z.ltb_lt. lia.
Qed.

Lemma inside_raster_spec (r c : Z) :
  inside_raster r c = true <-> 0 <= r < 600 /\ 0 <= c < 600.
Proof.
  unfold inside_raster.
  change imsize_y with 600. change imsize_x with 600.
  rewrite !andb_true_iff, !Z.leb_le, !Z.ltb_lt. lia.
Qed.

(** The marker has a position in the raster when one of its five pixels
    is a position of the raster. *)
Lemma marker_in_raster_iff (col row : Z) :
  marker_in_raster col row = true
  <-> exists r c, inside_raster r c = true /\ in_marker col row r c = true.
Proof.
  rewrite marker_in_raster_spec. split.
  - intros Hin.
    exists (Z.max 0 (Z.min 599 row)), (Z.max 0 (Z.min 599 col)).
    rewrite inside_raster_spec. unfold in_marker. rewrite Z.leb_le. lia.
  - intros (r & c & Hin & Hm).
    rewrite inside_raster_spec in Hin. unfold in_marker in Hm.
    rewrite Z.leb_le in Hm. lia.
Qed.

(** A marker without a position in the raster is stamped without error
    and without effect. *)
Lemma stamp_point_misses (img : image) (p : point) (col row : Z) :
  widths img = widths (zeros imsize_y imsize_x) ->
  Spec.pixel_of p = Ok (col, row) ->
  fits_int col && fits_int row = true ->
  marker_in_raster col row = false ->
  stamp_point img p = Ok img.
Proof.
  intros Hw Hpix Hfit Hmiss.
  rewrite (@stamp_point_ok img p col row Hpix Hfit). f_equal.
  assert (Hrect : rect img).
  { eapply widths_rect; [symmetry; exact Hw | apply rect_zeros]. }
  destruct (@widths_dims img Hw) as [Hh Hwd].
  apply image_ext.
  - apply widths_length, widths_Circle.
  - intros r c. rewrite (@get_Circle_1 img col row marker_color r c Hrect).
    destruct (get img r c) as [px|] eqn:Hget; [|reflexivity].
    destruct (@get_bounds img r c px Hrect Hget) as [Hr Hc].
    rewrite Hh in Hr. rewrite Hwd in Hc.
    replace (Z.abs (r - row) + Z.abs (c - col) <=? 1) with false;
      [reflexivity|].
    symmetry. apply Z.leb_gt.
    assert (Hnot : ~ ((0 <= row < 600 /\ -1 <= col <= 600)
                      \/ (0 <= col < 600 /\ -1 <= row <= 600))).
    { rewrite <- marker_in_raster_spec, Hmiss. discriminate. }
    clear Hget Hrect Hw Hmiss. lia.
  - intros n ra rb. apply widths_nth, widths_Circle.
Qed.

Lemma covered_app (pts1 pts2 : list point) (r c : Z) :
  covered (pts1 ++ pts2) r c = covered pts1 r c || covered pts2 r c.
Proof. unfold covered. apply existsb_app. Qed.

(** C2, amended. The renderer has no window test; what keeps a point
    off the raster is the clipping of its marker. A point whose pixel
    (the integer parts of its transformed coordinates) fits a C [int]
    is not rasterized when its marker, the pixel and its four
    neighbours, has no position in the 600 by 600 raster; this is so of
    every pixel whose column or row is at most -2 or at least 601. The
    renderer then gives the same result, raster for raster, as on the
    frame without the point, and stamping the point raises no error on
    any raster of the renderer. Where the marker has a position in the
    raster, whether the point lies in the window or not, that position
    is [(255, 0, 0)] in the raster of the frame, which is not the raster
    of the frame without the point unless the marker of another point
    covers the position. *)
Theorem far_point_not_rasterized
        (pts1 pts2 : list point) (p : point) (col row : Z) :
  pts1 ++ pts2 <> [] ->
  Spec.pixel_of p = Ok (col, row) ->
  fits_int col && fits_int row = true ->
  (marker_in_raster col row = true
   <-> exists r c, inside_raster r c = true /\ in_marker col row r c = true)
  /\ (col <= -2 \/ 601 <= col \/ row <= -2 \/ 601 <= row ->
      marker_in_raster col row = false)
  /\ (marker_in_raster col row = false ->
      render_points (pts1 ++ p :: pts2) = render_points (pts1 ++ pts2)
      /\ (forall img, widths img = widths (zeros 600 600) ->
                      stamp_marker img (raster_units p) = Ok img))
  /\ (forall img r c,
        render_points (pts1 ++ p :: pts2) = Ok img ->
        inside_raster r c = true -> in_marker col row r c = true ->
        get img r c = Some (255, 0, 0)
        /\ (covered (pts1 ++ pts2) r c = false ->
            render_points (pts1 ++ pts2) <> Ok img)).
Proof.
  intros _ Hpix Hfit. split; [apply marker_in_raster_iff|].
  split; [|split].
  - intros Hfar.
    destruct (marker_in_raster col row) eqn:Hin; [|reflexivity].
    apply marker_in_raster_spec in Hin. lia.
  - intros Hmiss. split.
    + rewrite !render_points_fold, !ofold_app.
      destruct (ofold stamp_point pts1 (zeros imsize_y imsize_x))
        as [img1|e] eqn:Hfold; [|reflexivity].
      simpl. apply stamp_points_widths in Hfold.
      now rewrite (@stamp_point_misses img1 p col row Hfold Hpix Hfit Hmiss).
    + intros img Hw. rewrite stamp_marker_raster_units.
      exact (@stamp_point_misses img p col row Hw Hpix Hfit Hmiss).
  - intros img r c Hrender Hin Hm.
    assert (Hget : get img r c = Some (255, 0, 0)).
    { rewrite render_points_fold in Hrender.
      rewrite (@stamp_points_get _ _ _ (rect_zeros imsize_y imsize_x)
                 Hrender r c).
      rewrite get_zeros_inside, Hin, covered_app.
      rewrite (@covered_cons p pts2 col row r c Hpix), Hm.
      now rewrite orb_true_r. }
    split; [exact Hget|].
    intros Hfree Hwithout.
    rewrite render_points_fold in Hwithout.
    rewrite (@stamp_points_get _ _ _ (rect_zeros imsize_y imsize_x)
               Hwithout r c) in Hget.
    rewrite get_zeros_inside, Hin, Hfree in Hget. discriminate.
Qed.

(** The point [(-0.1, -30.1)] lies outside the window, diagonally off
    the corner of the raster: its pixel is [(-1, -1)], and its marker
    has no position in the raster. *)
Lemma far_point_not_rasterized_witness :
  Spec.outside_window (-0.1, -30.1, 0)%float = true
  /\ render_points ([inside_point] ++ (-0.1, -30.1, 0)%float :: [])
     = render_points ([inside_point] ++ []).
Proof.
  split; [reflexivity|].
  refine (proj1 (proj1 (proj2 (proj2
            (@far_point_not_rasterized [inside_point] []
               (-0.1, -30.1, 0)%float (-1) (-1) _ _ _))) _)).
  - discriminate.
  - vm_compute. reflexivity.
  - reflexivity.
  - reflexivity.
Defined.

End OutsideWindow.

(** ** The frame streams of [imaging_viewer] *)

Section StreamContent.
Import Py Np RadarImageOverlay ImagingViewer.

Variable ImageData : Type.
Variable DisplayState : Type.
Variable display_new : DisplayState.
Variable display_call : DisplayState -> ImageData -> DisplayState * image.

Lemma render_points_shape (pts : list point) (img : image) :
  render_points pts = Ok img -> shape img = (600, 600, 3).
Proof.
  rewrite render_points_fold. intros Hfold.
  apply stamp_points_widths in Hfold.
  destruct (@widths_dims _ Hfold) as [Hh Hw].
  unfold shape. now rewrite Hh, Hw.
Qed.

Lemma drop_empty_cons_empty (pc : RadarPointCloud)
      (pcs : list RadarPointCloud) :
  is_empty pc = true -> drop_empty (pc :: pcs) = drop_empty pcs.
Proof. intros Hpc. unfold drop_empty. simpl. now rewrite Hpc. Qed.

Lemma drop_empty_cons_nonempty (pc : RadarPointCloud)
      (pcs : list RadarPointCloud) :
  is_empty pc = false -> drop_empty (pc :: pcs) = pc :: drop_empty pcs.
Proof. intros Hpc. unfold drop_empty. simpl. now rewrite Hpc. Qed.

Lemma point_cloud_frames_cons_empty (pc : RadarPointCloud)
      (pcs : list RadarPointCloud) :
  is_empty pc = true ->
  point_cloud_frames ImageData (pc :: pcs) = point_cloud_frames ImageData pcs.
Proof. unfold is_empty. intros Hpc. simpl. now rewrite Hpc. Qed.

Lemma point_cloud_frames_cons_ok (pc : RadarPointCloud)
      (pcs : list RadarPointCloud) (img : image) :
  is_empty pc = false ->
  render_points (point_cloud pc) = Ok img ->
  point_cloud_frames ImageData (pc :: pcs)
  = ((RawPointCloud pc, bare img) :: fst (point_cloud_frames ImageData pcs),
     snd (point_cloud_frames ImageData pcs)).
Proof.
  unfold is_empty. intros Hpc Hrender. simpl. rewrite Hpc, Hrender.
  now destruct (point_cloud_frames ImageData pcs).
Qed.

Lemma point_cloud_frames_cons_raise (pc : RadarPointCloud)
      (pcs : list RadarPointCloud) (e : error) :
  is_empty pc = false ->
  render_points (point_cloud pc) = Raise e ->
  point_cloud_frames ImageData (pc :: pcs) = ([], Some e).
Proof.
  unfold is_empty. intros Hpc Hrender. simpl. now rewrite Hpc, Hrender.
Qed.

(** X4. The frames that [convert_point_cloud_stream] yields are those of
    the non-empty records, one each and in the order of the file, up to
    the first record whose rendering raises: every frame carries its
    record and the 600 by 600 raster of its points, with nothing stamped
    on it. The stream ends by exhaustion when every non-empty record has
    been rendered, and otherwise with the exception of the first record
    that cannot be rendered, the records after it being left unread. *)
Theorem point_cloud_stream_structure (pcs : list RadarPointCloud) :
  let frames := fst (point_cloud_frames ImageData pcs) in
  let ending := snd (point_cloud_frames ImageData pcs) in
  map fst frames
  = map RawPointCloud (firstn (List.length frames) (drop_empty pcs))
  /\ Forall (fun item : raw_data ImageData * frame =>
               stamps (snd item) = []
               /\ shape (pixels (snd item)) = (600, 600, 3)
               /\ match fst item with
                  | RawPointCloud pc =>
                      render_points (point_cloud pc) = Ok (pixels (snd item))
                  | RawImage _ => False
                  end) frames
  /\ match ending with
     | None => List.length frames = List.length (drop_empty pcs)
     | Some e =>
         exists pc,
           nth_error (drop_empty pcs) (List.length frames) = Some pc
           /\ render_points (point_cloud pc) = Raise e
     end.
Proof.
  cbv zeta. induction pcs as [|pc pcs IH].
  - simpl. repeat split; constructor.
  - destruct (is_empty pc) eqn:Hpc.
    + rewrite (@drop_empty_cons_empty pc pcs Hpc).
      now rewrite (@point_cloud_frames_cons_empty pc pcs Hpc).
    + rewrite (@drop_empty_cons_nonempty pc pcs Hpc).
      destruct (render_points (point_cloud pc)) as [img|e] eqn:Hrender.
      * rewrite (@point_cloud_frames_cons_ok pc pcs img Hpc Hrender).
        destruct (point_cloud_frames ImageData pcs) as [frames ending].
        simpl fst in *. simpl snd in *.
        destruct IH as (Hraws & Hall & Hend).
        split; [|split].
        -- simpl. now rewrite Hraws.
        -- constructor; [|exact Hall]. simpl.
           repeat split;
             [exact (@render_points_shape _ _ Hrender) | exact Hrender].
        -- destruct ending as [e|]; simpl; [exact Hend | now rewrite Hend].
      * rewrite (@point_cloud_frames_cons_raise pc pcs e Hpc Hrender).
        simpl. split; [reflexivity|]. split; [constructor|].
        exists pc. now split.
Qed.

Lemma image_frames_raws (images : list (RadarImage ImageData)) :
  forall display,
    map fst (image_frames display_call display images)
    = map RawImage images
    /\ Forall (fun item : raw_data ImageData * frame => stamps (snd item) = [])
         (image_frames display_call display images).
Proof.
  induction images as [|radar_image images IH]; intros display; simpl.
  - split; constructor.
  - destruct (display_call display (ri_image radar_image))
      as [display' im_rgb].
    destruct (IH display') as [Hraws Hall]. simpl. split.
    + now rewrite Hraws.
    + constructor; [reflexivity | exact Hall].
Qed.

(** X5. On an existing file, [convert_image_stream] yields exactly one
    frame per record of the file, in the order of the file and each
    paired with its own record, with nothing stamped on it, and the
    stream ends by exhaustion. *)
Theorem image_stream_one_frame_per_record
        (w : world ImageData) (image_pbs_path : string) :
  file_exists w image_pbs_path = true ->
  let stream := convert_image_stream display_new display_call w
                  image_pbs_path in
  map fst (fst stream) = map RawImage (images_at w image_pbs_path)
  /\ List.length (fst stream) = List.length (images_at w image_pbs_path)
  /\ Forall (fun item : raw_data ImageData * frame => stamps (snd item) = [])
       (fst stream)
  /\ snd stream = None.
Proof.
  intros Hexists. cbv zeta.
  unfold convert_image_stream, RadarDataStreamer. rewrite Hexists.
  simpl fst. simpl snd.
  destruct (image_frames_raws (images_at w image_pbs_path) display_new)
    as [Hraws Hall].
  split; [exact Hraws|]. split; [|split; [exact Hall | reflexivity]].
  apply (f_equal (@List.length _)) in Hraws.
  now rewrite !length_map in Hraws.
Qed.

End StreamContent.

Lemma image_stream_one_frame_per_record_witness :
  map fst (fst (ImagingViewer.convert_image_stream tt Samples.display
                  Samples.only_b "in/b_images.pbs"))
  = [RawImage Samples.image_record].
Proof.
  exact (proj1 (@image_stream_one_frame_per_record unit unit tt
                  Samples.display Samples.only_b "in/b_images.pbs"
                  eq_refl)).
Defined.

(** ** The frame loop of [imaging_viewer] *)

Section FrameLoop.
Import Py Np RadarImageOverlay ImagingViewer.

Variable ImageData : Type.
Variable DisplayState : Type.
Variable display_new : DisplayState.
Variable display_call : DisplayState -> ImageData -> DisplayState * image.

(** Without an output directory, a frame sets up the artist if there is
    none and goes to the display with its label. *)
Lemma process_frame_display (args : Args) (io_path : IOPath) (v : vars)
      (item : raw_data ImageData * frame) :
  output_dir args = None -> video_writer v = None ->
  process_frame args io_path v item
  = (artist_setup (artist v) [item] ++ [SetData (displayed item)],
     Ok {| artist := artist_after (artist v) [item];
           video_writer := None |}).
Proof.
  intros Hout Hvw. destruct item as [raw im].
  unfold process_frame. cbv beta iota.
  destruct (shape (pixels im)) as [[h wd] ch] eqn:Hshape.
  rewrite overlay_metadata_ok, code_label_is_spec_label, Hout, Hvw.
  unfold displayed, artist_setup, artist_after. simpl fst. simpl snd.
  cbn [lift bind ret emit app pixels draw_timestamp].
  rewrite Hshape. destruct (artist v) as [a|]; reflexivity.
Qed.

Lemma frames_display (args : Args) (io_path : IOPath)
      (frames : list (raw_data ImageData * frame)) :
  output_dir args = None ->
  forall v, video_writer v = None ->
    for_each frames v (process_frame args io_path)
    = (artist_setup (artist v) frames
         ++ map (fun item => SetData (displayed item)) frames,
       Ok {| artist := artist_after (artist v) frames;
             video_writer := None |}).
Proof.
  intros Hout. induction frames as [|item frames IH]; intros v Hvw.
  - destruct v as [a vw]. simpl in Hvw. subst vw.
    simpl. now destruct a.
  - cbn [for_each].
    rewrite (@process_frame_display args io_path v item Hout Hvw), bind_ok.
    rewrite IH by reflexivity.
    destruct (artist v) as [a|]; simpl; reflexivity.
Qed.

(** The session without an output directory, from its stream. *)
Lemma display_only_frames
      (w : world ImageData) (args : Args) (artist0 : option (Z * Z * Z))
      (io_path : IOPath)
      (data_streamer : generator (raw_data ImageData * frame)) :
  output_dir args = None ->
  open_stream display_new display_call w io_path = ([], Ok data_streamer) ->
  session display_new display_call w args artist0 io_path
  = (artist_setup artist0 (fst data_streamer)
       ++ map (fun item => SetData (displayed item)) (fst data_streamer),
     match snd data_streamer with
     | None => Ok (artist_after artist0 (fst data_streamer))
     | Some e => Raise e
     end).
Proof.
  intros Hout Hopen. unfold session. rewrite Hopen, bind_ok. simpl app.
  unfold for_gen.
  rewrite (@frames_display args io_path (fst data_streamer) Hout
             {| artist := artist0; video_writer := None |} eq_refl).
  rewrite bind_ok. simpl artist.
  destruct (snd data_streamer); simpl; now rewrite !app_nil_r.
Qed.

(** X6. Without an output directory, a session sends every frame of its
    stream to the display, in the order of the stream and each with the
    label of its own record stamped on it, after setting up the display
    artist on the first frame if no earlier session has done so; it
    constructs no video writer. The session ends normally when the stream
    ends by exhaustion, and with the exception of the stream
    otherwise. *)
Theorem display_only_session
        (w : world ImageData) (args : Args) (artist0 : option (Z * Z * Z))
        (io_path : IOPath)
        (data_streamer : generator (raw_data ImageData * frame)) :
  output_dir args = None ->
  open_stream display_new display_call w io_path = ret data_streamer ->
  session display_new display_call w args artist0 io_path
  = (artist_setup artist0 (fst data_streamer)
       ++ map (fun item => SetData (displayed item)) (fst data_streamer),
     match snd data_streamer with
     | None => Ok (artist_after artist0 (fst data_streamer))
     | Some e => Raise e
     end).
Proof.
  intros Hout Hopen. now apply display_only_frames.
Qed.

(** *** What never reaches the video writer *)

Lemma for_each_trace_invariant {A S} (P : event -> Prop) (Inv : S -> Prop)
      (xs : list A) (body : S -> A -> M S) :
  (forall s x, Inv s ->
               Forall P (trace (body s x))
               /\ forall s', result (body s x) = Ok s' -> Inv s') ->
  forall s, Inv s -> Forall P (trace (for_each xs s body)).
Proof.
  intros Hbody. induction xs as [|x xs IH]; intros s Hs; simpl.
  - constructor.
  - rewrite trace_bind. destruct (Hbody s x Hs) as [Htrace Hnext].
    apply Forall_app. split; [exact Htrace|].
    destruct (result (body s x)) as [s'|e]; [|constructor].
    apply IH. now apply Hnext.
Qed.

Lemma process_frame_no_video_write (args : Args) (io_path : IOPath)
      (v : vars) (item : raw_data ImageData * frame) :
  video_writer v = None ->
  Forall no_video_write (trace (process_frame args io_path v item))
  /\ forall v', result (process_frame args io_path v item) = Ok v' ->
                video_writer v' = None.
Proof.
  intros Hvw. destruct (output_dir args) as [dir|] eqn:Hout.
  - destruct item as [raw im].
    rewrite (@process_frame_first _ args io_path v raw im dir Hout Hvw).
    split; [|discriminate]. simpl.
    destruct (artist v); repeat constructor.
  - rewrite (@process_frame_display args io_path v item Hout Hvw).
    split.
    + simpl. unfold artist_setup.
      destruct (artist v); repeat constructor.
    + intros v' Hv'. simpl in Hv'. now inversion Hv'.
Qed.

Lemma session_no_video_write (w : world ImageData) (args : Args)
      (artist0 : option (Z * Z * Z)) (io_path : IOPath) :
  Forall no_video_write
    (trace (session display_new display_call w args artist0 io_path)).
Proof.
  unfold session. rewrite trace_bind, open_stream_silent. simpl app.
  destruct (result (open_stream display_new display_call w io_path))
    as [g|e]; [|constructor].
  rewrite trace_bind. apply Forall_app. split.
  - unfold for_gen. rewrite trace_bind. apply Forall_app. split.
    + apply (@for_each_trace_invariant _ _ no_video_write
               (fun v => video_writer v = None)).
      * intros s x Hs. now apply process_frame_no_video_write.
      * reflexivity.
    + destruct (result _); [|constructor].
      destruct (snd g); constructor.
  - destruct (result _); constructor.
Qed.

(** X7. No run of [imaging_viewer] ever hands a frame to the video
    writer, with or without an output directory, whatever the files
    hold. *)
Theorem video_writer_never_receives_a_frame
        (w : world ImageData) (args : Args) :
  Forall no_video_write (trace (main display_new display_call w args)).
Proof.
  unfold main. rewrite trace_bind. apply Forall_app. split.
  - apply for_each_trace_Forall. intros a io_path.
    apply session_no_video_write.
  - destruct (result _); constructor.
Qed.

End FrameLoop.

Lemma display_only_session_witness :
  ImagingViewer.session tt Samples.display Samples.only_b
    (Samples.args_of ["b"] None false) None
    (ImagingViewer.io_path_of (Samples.args_of ["b"] None false) "b")
  = ([Imshow (2, 3, 3);
      SetData {| RadarImageOverlay.pixels := Np.zeros 2 3;
                 RadarImageOverlay.stamps :=
                   [RadarImageOverlay.Label "42:3.14"] |}],
     Py.Ok (Some (2, 3, 3))).
Proof.
  exact (@display_only_session unit unit tt Samples.display Samples.only_b
           (Samples.args_of ["b"] None false) None
           (ImagingViewer.io_path_of (Samples.args_of ["b"] None false) "b")
           ([(RawImage Samples.image_record,
              RadarImageOverlay.bare (Np.zeros 2 3))], None)
           eq_refl eq_refl).
Defined.

(** ** Whole runs of [imaging_viewer] *)

Section WholeRuns.
Import Py Np RadarImageOverlay ImagingViewer.

Variable ImageData : Type.
Variable DisplayState : Type.
Variable display_new : DisplayState.
Variable display_call : DisplayState -> ImageData -> DisplayState * image.

(** *** With an output directory *)

(** A session with an output directory: nothing happens on a stream
    without frames, and the first frame of the stream ends the run. *)
Lemma session_with_output (w : world ImageData) (args : Args)
      (artist0 : option (Z * Z * Z)) (io_path : IOPath) (dir : string) :
  output_dir args = Some dir ->
  (trace (session display_new display_call w args artist0 io_path) = []
   /\ forall a, result (session display_new display_call w args artist0
                          io_path) = Ok a -> a = artist0)
  \/ exists im_height im_width channels,
      session display_new display_call w args artist0 io_path
      = (match artist0 with
         | None => [Imshow (im_height, im_width, channels)]
         | Some _ => []
         end
           ++ [VideoWriterNew (output_path io_path) im_width im_height
                 (frame_rate args) (quality_factor args)],
         Raise (NameError "stack")).
Proof.
  intros Hout. unfold session.
  pose proof (open_stream_silent display_new display_call w io_path)
    as Hsilent.
  destruct (open_stream display_new display_call w io_path) as [t0 [g|e]];
    simpl in Hsilent; subst t0.
  - rewrite bind_ok. simpl app.
    destruct g as [[|[raw im] frames] ending].
    + left. unfold for_gen. simpl.
      destruct ending; simpl; split; try reflexivity; intros a Ha;
        now inversion Ha.
    + right. unfold for_gen. simpl fst. cbn [for_each].
      rewrite (@process_frame_first _ args io_path
                 {| artist := artist0; video_writer := None |}
                 raw im dir Hout eq_refl).
      rewrite !bind_raise. cbn [trace result fst snd artist].
      destruct (shape (pixels im)) as [[h wd] ch].
      exists h, wd, ch. reflexivity.
  - left. split; [reflexivity|]. intros a Ha. inversion Ha.
Qed.

(** A session over an empty stream does nothing and keeps the
    artist. *)
Lemma session_empty_stream (w : world ImageData) (args : Args)
      (artist0 : option (Z * Z * Z)) (io_path : IOPath) :
  empty_stream display_new display_call w io_path ->
  session display_new display_call w args artist0 io_path = ret artist0.
Proof.
  unfold empty_stream, session. intros ->. reflexivity.
Qed.

Lemma sessions_empty_streams (w : world ImageData) (args : Args)
      (paths rest : list IOPath) (artist0 : option (Z * Z * Z)) :
  Forall (empty_stream display_new display_call w) paths ->
  for_each (paths ++ rest) artist0 (session display_new display_call w args)
  = for_each rest artist0 (session display_new display_call w args).
Proof.
  induction 1 as [|io_path paths Hempty _ IH]; [reflexivity|].
  simpl app. cbn [for_each].
  rewrite (@session_empty_stream w args artist0 io_path Hempty).
  rewrite bind_ret_l. exact IH.
Qed.

(** The first frame of a stream ends its session, and the run, when
    there is an output directory. *)
Lemma session_first_frame (w : world ImageData) (args : Args)
      (io_path : IOPath) (dir : string)
      (item : raw_data ImageData * frame)
      (frames : list (raw_data ImageData * frame))
      (ending : option error) :
  output_dir args = Some dir ->
  open_stream display_new display_call w io_path
  = ret (item :: frames, ending) ->
  session display_new display_call w args None io_path
  = ([Imshow (shape (pixels (snd item)));
      VideoWriterNew (output_path io_path)
        (snd (fst (shape (pixels (snd item)))))
        (fst (fst (shape (pixels (snd item)))))
        (frame_rate args) (quality_factor args)],
     Raise (NameError "stack")).
Proof.
  intros Hout Hopen. unfold session. rewrite Hopen, bind_ret_l.
  unfold for_gen. simpl fst. cbn [for_each]. destruct item as [raw im].
  rewrite (@process_frame_first _ args io_path
             {| artist := None; video_writer := None |}
             raw im dir Hout eq_refl).
  reflexivity.
Qed.

(** A stream that cannot be opened, or that ends in an exception before
    its first frame, ends the run with its exception. *)
Lemma session_no_frame_error (w : world ImageData) (args : Args)
      (artist0 : option (Z * Z * Z)) (io_path : IOPath) (e : error) :
  result (open_stream display_new display_call w io_path) = Raise e
  \/ open_stream display_new display_call w io_path = ret ([], Some e) ->
  session display_new display_call w args artist0 io_path = ([], Raise e).
Proof.
  unfold session. intros [Hraise | Hopen].
  - pose proof (open_stream_silent display_new display_call w io_path)
      as Hsilent.
    destruct (open_stream display_new display_call w io_path) as [t r].
    simpl in Hraise, Hsilent. subst t r. reflexivity.
  - rewrite Hopen. reflexivity.
Qed.

Lemma output_path_of_name (args : Args) (name dir : string) :
  output_dir args = Some dir ->
  output_path (io_path_of args name) = Some (join dir (name +++ ".mp4")).
Proof.
  intros Hout. unfold io_path_of. rewrite Hout.
  now destruct (point_cloud_flag args).
Qed.

(** X8. With an output directory, a run of [imaging_viewer] goes
    through the radar names in order and stops at the first frame that
    a stream yields. As long as the stream of a name is empty (it
    opens, yields no frame and ends by exhaustion) nothing is displayed
    or constructed. At the first name whose stream yields a frame, the
    run sets up the display artist with the shape of that frame,
    constructs the video writer for [<name>.mp4] joined to the output
    directory with the width and the height of that frame, and ends
    with [NameError] for [stack]: these two events are the whole trace,
    no frame reaches the display or the video writer, whatever names
    follow. If instead the stream of that name cannot be opened
    or ends in an exception before its first frame, the run ends with
    that exception and an empty trace; if the streams of all names are
    empty, the run ends normally with an empty trace. *)
Theorem run_with_output_directory_stops_at_first_frame
        (w : world ImageData) (args : Args) (dir : string) :
  output_dir args = Some dir ->
  (Forall (fun name => empty_stream display_new display_call w
                         (io_path_of args name)) (radar_name args) ->
   main display_new display_call w args = ret tt)
  /\ (forall before name after,
        radar_name args = before ++ name :: after ->
        Forall (fun earlier => empty_stream display_new display_call w
                                 (io_path_of args earlier)) before ->
        (forall item frames ending,
            open_stream display_new display_call w (io_path_of args name)
            = ret (item :: frames, ending) ->
            main display_new display_call w args
            = ([Imshow (shape (pixels (snd item)));
                VideoWriterNew (Some (join dir (name +++ ".mp4")))
                  (snd (fst (shape (pixels (snd item)))))
                  (fst (fst (shape (pixels (snd item)))))
                  (frame_rate args) (quality_factor args)],
               Raise (NameError "stack")))
        /\ (forall e,
              result (open_stream display_new display_call w
                        (io_path_of args name)) = Raise e
              \/ open_stream display_new display_call w
                   (io_path_of args name) = ret ([], Some e) ->
              main display_new display_call w args = ([], Raise e))).
Proof.
  intros Hout. split.
  - intros Hall. unfold main, input_output_paths.
    rewrite <- (app_nil_r (map (io_path_of args) (radar_name args))).
    rewrite sessions_empty_streams by (now apply Forall_map).
    reflexivity.
  - intros before name after Hnames Hbefore.
    assert (Hrun : forall t e,
               session display_new display_call w args None
                 (io_path_of args name) = (t, Raise e) ->
               main display_new display_call w args = (t, Raise e)).
    { intros t e Hsession. unfold main, input_output_paths.
      rewrite Hnames, map_app. simpl map.
      rewrite sessions_empty_streams by (now apply Forall_map).
      cbn [for_each]. rewrite Hsession. reflexivity. }
    split.
    + intros item frames ending Hopen.
      rewrite <- (@output_path_of_name args name dir Hout).
      apply Hrun.
      exact (@session_first_frame w args (io_path_of args name) dir
               item frames ending Hout Hopen).
    + intros e He. apply Hrun.
      exact (@session_no_frame_error w args None (io_path_of args name)
               e He).
Qed.

(** *** The display artist *)

Lemma imshows_app (t1 t2 : list event) :
  imshows (t1 ++ t2) = (imshows t1 + imshows t2)%nat.
Proof. unfold imshows. now rewrite filter_app, length_app. Qed.

Lemma imshows_set_data (frames : list (raw_data ImageData * frame)) :
  imshows (map (fun item => SetData (displayed item)) frames) = 0%nat.
Proof. induction frames as [|item frames IH]; [reflexivity | exact IH]. Qed.

Lemma imshows_artist_setup (artist0 : option (Z * Z * Z))
      (frames : list (raw_data ImageData * frame)) :
  (imshows (artist_setup artist0 frames)
   + artists_left (artist_after artist0 frames) = artists_left artist0)%nat.
Proof. destruct artist0, frames; reflexivity. Qed.

(** The artists created by a session and the one that may still be
    created after it never exceed what the session started with. *)
Lemma session_artists (w : world ImageData) (args : Args)
      (artist0 : option (Z * Z * Z)) (io_path : IOPath) :
  (imshows (trace (session display_new display_call w args artist0 io_path))
   + match result (session display_new display_call w args artist0
                     io_path) with
     | Ok a => artists_left a
     | Raise _ => 0
     end <= artists_left artist0)%nat.
Proof.
  destruct (output_dir args) as [dir|] eqn:Hout.
  - destruct (@session_with_output w args artist0 io_path dir Hout)
      as [[Htrace Hres] | (h & wd & ch & Hsession)].
    + rewrite Htrace.
      destruct (result _) as [a|e]; [|simpl; lia].
      rewrite (Hres a eq_refl). simpl. lia.
    + rewrite Hsession. simpl. destruct artist0; simpl; lia.
  - pose proof (open_stream_silent display_new display_call w io_path)
      as Hsilent.
    destruct (open_stream display_new display_call w io_path)
      as [t0 [g|e]] eqn:Hopen; simpl in Hsilent; subst t0.
    + rewrite (@display_only_frames _ _ display_new display_call w args artist0
                 io_path g Hout Hopen).
      simpl trace. simpl result.
      rewrite imshows_app, imshows_set_data.
      pose proof (imshows_artist_setup artist0 (fst g)) as Hsetup.
      destruct (snd g); lia.
    + unfold session. rewrite Hopen. simpl. lia.
Qed.

Lemma sessions_artists (w : world ImageData) (args : Args)
      (paths : list IOPath) :
  forall artist0,
    (imshows (trace (for_each paths artist0
                       (session display_new display_call w args)))
     + match result (for_each paths artist0
                       (session display_new display_call w args)) with
       | Ok a => artists_left a
       | Raise _ => 0
       end <= artists_left artist0)%nat.
Proof.
  induction paths as [|io_path paths IH]; intros artist0.
  - simpl. lia.
  - cbn [for_each]. rewrite trace_bind, result_bind, imshows_app.
    pose proof (session_artists w args artist0 io_path) as Hsession.
    destruct (result (session display_new display_call w args artist0
                        io_path)) as [a|e].
    + pose proof (IH a) as Hrest. lia.
    + change (imshows []) with 0%nat. lia.
Qed.

(** X9. In a whole run of [imaging_viewer] the display artist is set
    up at most once, however many radar names are requested: the artist
    of the first frame is reused by every later frame and session. *)
Theorem display_artist_set_up_at_most_once
        (w : world ImageData) (args : Args) :
  (imshows (trace (main display_new display_call w args)) <= 1)%nat.
Proof.
  unfold main. rewrite trace_bind, imshows_app.
  pose proof (sessions_artists w args (input_output_paths args) None)
    as Hrun.
  change (artists_left None) with 1%nat in Hrun.
  destruct (result (for_each (input_output_paths args) None
                      (session display_new display_call w args)));
    change (imshows (trace (ret tt))) with 0%nat;
    change (imshows []) with 0%nat; lia.
Qed.

End WholeRuns.

(** The radar [a] has an empty image file and the radar [b] a file of
    one record: the run stops at the frame of [b], before [c]. *)
Lemma run_with_output_directory_stops_at_first_frame_witness :
  ImagingViewer.main tt Samples.display Samples.empty_a
    (Samples.args_of ["a"; "b"; "c"] (Some "out") false)
  = ([Imshow (2, 3, 3); VideoWriterNew (Some "out/b.mp4") 3 2 10 23],
     Py.Raise (Py.NameError "stack")).
Proof.
  refine (proj1 (proj2 (@run_with_output_directory_stops_at_first_frame
                          unit unit tt Samples.display Samples.empty_a
                          (Samples.args_of ["a"; "b"; "c"] (Some "out") false)
                          "out" eq_refl)
                   ["a"] "b" ["c"] eq_refl _)
            (RawImage Samples.image_record,
             RadarImageOverlay.bare (Np.zeros 2 3)) [] None _).
  - constructor; [reflexivity | constructor].
  - reflexivity.
Defined.

(** ** How a run of [imaging_viewer] can fail *)

Section RunErrors.
Import Py Np RadarImageOverlay ImagingViewer.

Variable ImageData : Type.
Variable DisplayState : Type.
Variable display_new : DisplayState.
Variable display_call : DisplayState -> ImageData -> DisplayState * image.

Lemma for_each_result_raise {A S} (P : error -> Prop) (xs : list A)
      (body : S -> A -> M S) :
  (forall s x e, result (body s x) = Raise e -> P e) ->
  forall s e, result (for_each xs s body) = Raise e -> P e.
Proof.
  intros Hbody. induction xs as [|x xs IH]; intros s e; simpl.
  - discriminate.
  - rewrite result_bind.
    destruct (result (body s x)) as [s'|e'] eqn:Hstep.
    + apply IH.
    + intros Heq. inversion Heq. subst. eapply Hbody; eauto.
Qed.

(** The only exception of the body of the frame loop is the one of the
    unbound name [stack]. *)
Lemma process_frame_error (args : Args) (io_path : IOPath) (v : vars)
      (item : raw_data ImageData * frame) (e : error) :
  result (process_frame args io_path v item) = Raise e ->
  e = NameError "stack".
Proof.
  destruct item as [raw im]. unfold process_frame. cbv beta iota.
  destruct (shape (pixels im)) as [[h wd] ch].
  rewrite overlay_metadata_ok.
  destruct (output_dir args), (video_writer v), (artist v); simpl;
    intros Heq; inversion Heq; reflexivity.
Qed.

Lemma point_cloud_frames_ending (pcs : list RadarPointCloud) (e : error) :
  snd (point_cloud_frames ImageData pcs) = Some e -> render_error e.
Proof.
  induction pcs as [|pc pcs IH]; [discriminate|].
  destruct (is_empty pc) eqn:Hpc.
  - now rewrite (@point_cloud_frames_cons_empty ImageData pc pcs Hpc).
  - destruct (render_points (point_cloud pc)) as [img|e'] eqn:Hrender.
    + now rewrite (@point_cloud_frames_cons_ok ImageData pc pcs img Hpc
                     Hrender).
    + rewrite (@point_cloud_frames_cons_raise ImageData pc pcs e' Hpc
                 Hrender).
      simpl. intros Heq. inversion Heq. subst.
      eapply render_points_error; eauto.
Qed.

(** The stream of a radar name: [sys.exit] on a missing file; on an
    existing file a generator that can only end by exhaustion or, in
    point-cloud mode, with an exception of the rendering. *)
Lemma open_stream_of_name (w : world ImageData) (args : Args)
      (name : string) :
  match result (open_stream display_new display_call w
                  (io_path_of args name)) with
  | Raise e => e = SystemExit (input_path args name +++ " does not exist")
  | Ok g => forall e, snd g = Some e ->
                      point_cloud_flag args = true /\ render_error e
  end.
Proof.
  unfold open_stream, io_path_of, input_path, exists_.
  destruct (point_cloud_flag args); simpl.
  - destruct (file_exists w _) eqn:Hexists; simpl; [|reflexivity].
    intros e. unfold convert_point_cloud_stream, RadarDataStreamer.
    rewrite Hexists. intros He. split; [reflexivity|].
    eapply point_cloud_frames_ending; eauto.
  - destruct (file_exists w _) eqn:Hexists; simpl; [|reflexivity].
    intros e. unfold convert_image_stream, RadarDataStreamer.
    rewrite Hexists. discriminate.
Qed.

Lemma session_error (w : world ImageData) (args : Args)
      (artist0 : option (Z * Z * Z)) (name : string) (e : error) :
  In name (radar_name args) ->
  result (session display_new display_call w args artist0
            (io_path_of args name)) = Raise e ->
  main_error args e.
Proof.
  intros Hname. unfold session. rewrite result_bind.
  pose proof (open_stream_of_name w args name) as Hopen.
  destruct (result (open_stream display_new display_call w
                      (io_path_of args name))) as [g|e0].
  - rewrite result_bind. unfold for_gen. rewrite result_bind.
    destruct (result (for_each (fst g) _ _)) as [v'|e1] eqn:Hloop.
    + destruct (snd g) as [e2|] eqn:Hending; simpl.
      * intros Heq. inversion Heq. subst.
        right. right. now apply Hopen.
      * discriminate.
    + intros Heq. inversion Heq. subst. right. left.
      eapply (@for_each_result_raise _ _ (fun e => e = NameError "stack"));
        [|exact Hloop].
      intros s x e0. apply process_frame_error.
  - intros Heq. inversion Heq. subst. left. exists name. now split.
Qed.

Lemma sessions_error (w : world ImageData) (args : Args)
      (names : list string) :
  (forall name, In name names -> In name (radar_name args)) ->
  forall artist0 e,
    result (for_each (map (io_path_of args) names) artist0
              (session display_new display_call w args)) = Raise e ->
    main_error args e.
Proof.
  induction names as [|name names IH]; intros Hnames artist0 e.
  - discriminate.
  - simpl map. cbn [for_each]. rewrite result_bind.
    destruct (result (session display_new display_call w args artist0
                        (io_path_of args name))) as [a|e0] eqn:Hsession.
    + apply IH. intros n Hn. apply Hnames. now right.
    + intros Heq. inversion Heq. subst.
      eapply session_error; [|exact Hsession].
      apply Hnames. now left.
Qed.

(** X10. As far as the code of the tool goes (the display, the overlay
    drawing and the decoding of an existing file being taken not to
    fail), a run of [imaging_viewer] can end with an exception in three
    ways only: [SystemExit] with the message ["<path> does not exist"]
    for the input file of a requested radar name, [NameError] for the
    unbound name [stack], and, in point-cloud mode only, an exception of
    the rendering of a point ([ValueError], [OverflowError] or the
    refusal of a centre by [cv2.circle]). In particular the check that
    the file exists keeps the streamer from ever meeting a missing
    file. *)
Theorem run_errors (w : world ImageData) (args : Args) (e : error) :
  result (main display_new display_call w args) = Raise e ->
  main_error args e
  /\ (forall path, e <> NotFoundError path)
  /\ (forall msg, e <> TypeError msg)
  /\ (forall name, e <> AttributeError name).
Proof.
  intros Hrun.
  assert (Herr : main_error args e).
  { unfold main in Hrun. rewrite result_bind in Hrun.
    destruct (result (for_each (input_output_paths args) None _))
      as [a|e0] eqn:Hloop; [discriminate|].
    inversion Hrun. subst.
    eapply (@sessions_error w args (radar_name args)); [|exact Hloop].
    auto. }
  split; [exact Herr|].
  destruct Herr as [(name & _ & ->) | [-> | [_ Hrender]]];
    repeat split; try discriminate;
    intros x Hx; subst e; exact Hrender.
Qed.

End RunErrors.

Lemma run_errors_witness :
  main_error (Samples.args_of ["a"; "b"] None false)
    (Py.SystemExit "in/a_images.pbs does not exist").
Proof.
  exact (proj1 (@run_errors unit unit tt Samples.display Samples.only_b
                  (Samples.args_of ["a"; "b"] None false)
                  (Py.SystemExit "in/a_images.pbs does not exist")
                  eq_refl)).
Defined.

(** ** Runs in image mode without an output directory *)

Section ImageRuns.
Import Py Np RadarImageOverlay ImagingViewer.

Variable ImageData : Type.
Variable DisplayState : Type.
Variable display_new : DisplayState.
Variable display_call : DisplayState -> ImageData -> DisplayState * image.

Lemma display_app (artist0 : option (Z * Z * Z))
      (l1 l2 : list (raw_data ImageData * frame)) :
  (artist_setup artist0 l1 ++ map (fun item => SetData (displayed item)) l1)
    ++ artist_setup (artist_after artist0 l1) l2
    ++ map (fun item => SetData (displayed item)) l2
  = artist_setup artist0 (l1 ++ l2)
      ++ map (fun item => SetData (displayed item)) (l1 ++ l2).
Proof.
  rewrite map_app.
  destruct artist0 as [a|], l1 as [|item l1], l2 as [|item2 l2]; simpl;
    rewrite <- ?app_assoc; reflexivity.
Qed.

Lemma artist_after_app (artist0 : option (Z * Z * Z))
      (l1 l2 : list (raw_data ImageData * frame)) :
  artist_after (artist_after artist0 l1) l2 = artist_after artist0 (l1 ++ l2).
Proof. destruct artist0, l1; reflexivity. Qed.

Lemma image_session (w : world ImageData) (args : Args)
      (artist0 : option (Z * Z * Z)) (name : string) :
  output_dir args = None -> point_cloud_flag args = false ->
  file_exists w (input_path args name) = true ->
  let frames := image_frames display_call display_new
                  (images_at w (input_path args name)) in
  session display_new display_call w args artist0 (io_path_of args name)
  = (artist_setup artist0 frames
       ++ map (fun item => SetData (displayed item)) frames,
     Ok (artist_after artist0 frames)).
Proof.
  intros Hout Hflag Hexists frames.
  rewrite (@display_only_frames _ _ display_new display_call w args artist0
             (io_path_of args name) (frames, None) Hout).
  - reflexivity.
  - unfold open_stream, io_path_of, exists_. rewrite Hflag. simpl.
    unfold input_path in Hexists. rewrite Hflag in Hexists.
    rewrite Hexists. simpl.
    unfold convert_image_stream, RadarDataStreamer. rewrite Hexists.
    unfold frames, input_path. now rewrite Hflag.
Qed.

Lemma image_sessions (w : world ImageData) (args : Args)
      (names : list string) :
  output_dir args = None -> point_cloud_flag args = false ->
  (forall name, In name names ->
                file_exists w (input_path args name) = true) ->
  forall artist0,
    for_each (map (io_path_of args) names) artist0
      (session display_new display_call w args)
    = (artist_setup artist0
         (image_run_frames display_new display_call w args names)
         ++ map (fun item => SetData (displayed item))
              (image_run_frames display_new display_call w args names),
       Ok (artist_after artist0
             (image_run_frames display_new display_call w args names))).
Proof.
  intros Hout Hflag. induction names as [|name names IH];
    intros Hexist artist0.
  - simpl. now destruct artist0.
  - simpl map. cbn [for_each].
    rewrite (@image_session w args artist0 name Hout Hflag
               (Hexist name (or_introl eq_refl))).
    rewrite bind_ok, IH by (intros n Hn; apply Hexist; now right).
    cbn [trace result fst snd].
    unfold image_run_frames. simpl flat_map.
    now rewrite display_app, artist_after_app.
Qed.

(** X11. In image mode and without an output directory, when the input
    file of every requested radar name exists, a run of [imaging_viewer]
    ends normally after sending to the display one labelled frame per
    record, file after file in the order of the command line and record
    after record in the order of each file; the display artist is set up
    once, by the first frame of the run. *)
Theorem image_run_displays_every_record
        (w : world ImageData) (args : Args) :
  output_dir args = None -> point_cloud_flag args = false ->
  (forall name, In name (radar_name args) ->
                file_exists w (input_path args name) = true) ->
  let frames := image_run_frames display_new display_call w args
                  (radar_name args) in
  main display_new display_call w args
  = (artist_setup None frames
       ++ map (fun item => SetData (displayed item)) frames,
     Ok tt)
  /\ map fst frames
     = map RawImage
         (flat_map (fun name => images_at w (input_path args name))
            (radar_name args)).
Proof.
  intros Hout Hflag Hexist frames. split.
  - unfold main, input_output_paths.
    rewrite (@image_sessions w args (radar_name args) Hout Hflag Hexist None).
    rewrite bind_ok. simpl. now rewrite app_nil_r.
  - unfold frames, image_run_frames. clear Hexist frames.
    induction (radar_name args) as [|name names IH]; [reflexivity|].
    simpl. rewrite !map_app, IH.
    now rewrite (proj1 (@image_frames_raws _ _ display_call
                          (images_at w (input_path args name)) display_new)).
Qed.

End ImageRuns.

Lemma image_run_displays_every_record_witness :
  ImagingViewer.main tt Samples.display Samples.only_b
    (Samples.args_of ["b"; "b"] None false)
  = ([Imshow (2, 3, 3);
      SetData {| RadarImageOverlay.pixels := Np.zeros 2 3;
                 RadarImageOverlay.stamps :=
                   [RadarImageOverlay.Label "42:3.14"] |};
      SetData {| RadarImageOverlay.pixels := Np.zeros 2 3;
                 RadarImageOverlay.stamps :=
                   [RadarImageOverlay.Label "42:3.14"] |}],
     Py.Ok tt).
Proof.
  refine (proj1 (@image_run_displays_every_record unit unit tt
                   Samples.display Samples.only_b
                   (Samples.args_of ["b"; "b"] None false)
                   eq_refl eq_refl _)).
  intros name [<-|[<-|[]]]; reflexivity.
Defined.

(** ** The paths of [imaging_viewer] *)

Section Paths.
Import Py ImagingViewer.

Lemma starts_with_sep_append (name suffix : string) :
  starts_with_sep suffix = false ->
  starts_with_sep (name +++ suffix) = starts_with_sep name.
Proof. destruct name; simpl; auto. Qed.

Lemma join_absolute_name (dir file : string) :
  starts_with_sep file = true -> join dir file = file.
Proof. unfold join. now intros ->. Qed.

Lemma join_relative_name (dir file : string) :
  starts_with_sep file = false ->
  join dir file = dir +++ separator dir +++ file.
Proof.
  unfold join, separator. intros ->.
  destruct ((String.length dir =? 0)%nat || ends_with_sep dir);
    reflexivity.
Qed.

Lemma input_suffix_relative (args : Args) :
  starts_with_sep (if point_cloud_flag args then "_points.pbs"
                   else "_images.pbs") = false.
Proof. now destruct (point_cloud_flag args). Qed.

(** X12. Every IO path of [imaging_viewer] has exactly one input file,
    chosen by the mode, and its paths are plain concatenations. For a
    radar name that does not start with [/], the input path is the
    input directory, a [/] unless the directory is empty or ends with
    one, the radar name as it was given and the suffix [_images.pbs] or
    [_points.pbs]; the output path is the output directory, such a
    [/], the radar name and [.mp4]. For a radar name that starts with
    [/], [os.path.join] drops the directory: the input path is
    [<radar-name>_images.pbs] or [<radar-name>_points.pbs] and the
    output path [<radar-name>.mp4], whatever the two directories
    are. *)
Theorem io_paths_and_directories (args : Args) (name : string) :
  (image_pbs_path (io_path_of args name), pc_pbs_path (io_path_of args name))
  = (if point_cloud_flag args then (None, Some (input_path args name))
     else (Some (input_path args name), None))
  /\ (starts_with_sep name = false ->
      input_path args name
      = input_dir args +++ separator (input_dir args) +++ name
          +++ (if point_cloud_flag args then "_points.pbs"
               else "_images.pbs")
      /\ output_path (io_path_of args name)
         = option_map (fun dir => dir +++ separator dir +++ name +++ ".mp4")
             (output_dir args))
  /\ (starts_with_sep name = true ->
      input_path args name
      = name +++ (if point_cloud_flag args then "_points.pbs"
                  else "_images.pbs")
      /\ output_path (io_path_of args name)
         = option_map (fun _ => name +++ ".mp4") (output_dir args)).
Proof.
  split; [|split].
  - unfold io_path_of, input_path.
    destruct (point_cloud_flag args); reflexivity.
  - intros Hname. split.
    + unfold input_path. apply join_relative_name.
      rewrite starts_with_sep_append; [exact Hname|].
      apply input_suffix_relative.
    + unfold io_path_of.
      destruct (point_cloud_flag args), (output_dir args) as [dir|];
        simpl; try reflexivity; f_equal; apply join_relative_name;
        now rewrite starts_with_sep_append.
  - intros Hname. split.
    + unfold input_path. apply join_absolute_name.
      rewrite starts_with_sep_append; [exact Hname|].
      apply input_suffix_relative.
    + unfold io_path_of.
      destruct (point_cloud_flag args), (output_dir args) as [dir|];
        simpl; try reflexivity; f_equal; apply join_absolute_name;
        now rewrite starts_with_sep_append.
Qed.

Lemma io_paths_and_directories_witness :
  input_path (Samples.args_of ["/etc/r"] (Some "out") false) "/etc/r"
  = "/etc/r_images.pbs"
  /\ ImagingViewer.output_path
       (ImagingViewer.io_path_of
          (Samples.args_of ["/etc/r"] (Some "out") false) "/etc/r")
     = Some "/etc/r.mp4".
Proof.
  exact (proj2 (proj2 (@io_paths_and_directories
                         (Samples.args_of ["/etc/r"] (Some "out") false)
                         "/etc/r")) eq_refl).
Defined.

End Paths.

(** ** The overlay of [point_cloud_viewer] *)

Section ViewerOverlay.
Import Py RadarImageOverlay.

Variable ImageData : Type.

(** X13. [overlay_metadata] of [point_cloud_viewer] never returns a
    frame: whatever the record, the raster frame and the flag, the call
    ends with an exception, a [NameError] for [draw_timestamp] when the
    range markers are disabled, and a [NameError] or an
    [AttributeError] when they are enabled, because the module imports
    neither [draw_timestamp] nor [draw_grid_line]. *)
Theorem viewer_overlay_never_returns (raw : raw_data ImageData)
        (im_rgb : frame) (show_range_marker : bool) :
  exists e,
    PointCloudViewer.overlay_metadata raw im_rgb show_range_marker = Raise e
    /\ match e with
       | NameError name =>
           name = (if show_range_marker then "draw_grid_line"
                   else "draw_timestamp")
       | AttributeError _ => show_range_marker = true
       | _ => False
       end.
Proof.
  destruct show_range_marker, raw as [radar_image|pc];
    eexists; (split; [reflexivity | reflexivity]).
Qed.

End ViewerOverlay.

(** ** Runs in point-cloud mode without an output directory *)

Section PointCloudRuns.
Import Py Np RadarImageOverlay ImagingViewer.

Variable ImageData : Type.
Variable DisplayState : Type.
Variable display_new : DisplayState.
Variable display_call : DisplayState -> ImageData -> DisplayState * image.

Lemma point_cloud_session (w : world ImageData) (args : Args)
      (artist0 : option (Z * Z * Z)) (name : string) :
  output_dir args = None -> point_cloud_flag args = true ->
  file_exists w (input_path args name) = true ->
  let stream := point_cloud_frames ImageData
                  (points_at w (input_path args name)) in
  session display_new display_call w args artist0 (io_path_of args name)
  = (artist_setup artist0 (fst stream)
       ++ map (fun item => SetData (displayed item)) (fst stream),
     match snd stream with
     | None => Ok (artist_after artist0 (fst stream))
     | Some e => Raise e
     end).
Proof.
  intros Hout Hflag Hexists stream.
  apply (@display_only_frames _ _ display_new display_call w args artist0
           (io_path_of args name) stream Hout).
  unfold open_stream, io_path_of, exists_. rewrite Hflag. simpl.
  unfold input_path in Hexists. rewrite Hflag in Hexists.
  rewrite Hexists. simpl.
  unfold convert_point_cloud_stream, RadarDataStreamer. rewrite Hexists.
  unfold stream, input_path. now rewrite Hflag.
Qed.

(** The sessions of a run in point-cloud mode, up to the end of the run
    or to the first record that cannot be rendered. *)
Lemma point_cloud_sessions
      (w : world ImageData) (args : Args) (names : list string) :
  output_dir args = None -> point_cloud_flag args = true ->
  (forall name, In name names ->
                file_exists w (input_path args name) = true) ->
  forall artist0,
    (Forall (fun name =>
               snd (point_cloud_frames ImageData
                      (points_at w (input_path args name))) = None) names ->
     for_each (map (io_path_of args) names) artist0
       (session display_new display_call w args)
     = (artist_setup artist0 (point_cloud_run_frames w args names)
          ++ map (fun item => SetData (displayed item))
               (point_cloud_run_frames w args names),
        Ok (artist_after artist0 (point_cloud_run_frames w args names))))
    /\ (forall before bad after e,
           names = before ++ bad :: after ->
           Forall (fun name =>
                     snd (point_cloud_frames ImageData
                            (points_at w (input_path args name))) = None)
             before ->
           snd (point_cloud_frames ImageData
                  (points_at w (input_path args bad))) = Some e ->
           for_each (map (io_path_of args) names) artist0
             (session display_new display_call w args)
           = (artist_setup artist0
                (point_cloud_run_frames w args (before ++ [bad]))
                ++ map (fun item => SetData (displayed item))
                     (point_cloud_run_frames w args (before ++ [bad])),
              Raise e)).
Proof.
  intros Hout Hflag Hexist.
  assert (Hgood : forall good,
             (forall name, In name good ->
                           file_exists w (input_path args name) = true) ->
             Forall (fun name =>
                       snd (point_cloud_frames ImageData
                              (points_at w (input_path args name))) = None)
               good ->
             forall artist0,
               for_each (map (io_path_of args) good) artist0
                 (session display_new display_call w args)
               = (artist_setup artist0 (point_cloud_run_frames w args good)
                    ++ map (fun item => SetData (displayed item))
                         (point_cloud_run_frames w args good),
                  Ok (artist_after artist0
                        (point_cloud_run_frames w args good)))).
  { induction good as [|name good IH]; intros Hex Hends artist0.
    - simpl. now destruct artist0.
    - inversion Hends as [|? ? Hend Hrest]; subst.
      simpl map. cbn [for_each].
      rewrite (@point_cloud_session w args artist0 name Hout Hflag
                 (Hex name (or_introl eq_refl))).
      rewrite Hend, bind_ok.
      rewrite IH by (try assumption; intros n Hn; apply Hex; now right).
      cbn [trace result fst snd].
      unfold point_cloud_run_frames. simpl flat_map.
      now rewrite display_app, artist_after_app. }
  intros artist0. split.
  - intros Hends. now apply Hgood.
  - intros before bad after e -> Hends Hbad.
    rewrite map_app, for_each_app.
    rewrite Hgood; [|intros n Hn; apply Hexist; apply in_or_app; now left
                    |exact Hends].
    rewrite bind_ok. simpl map. cbn [for_each].
    rewrite (@point_cloud_session w args _ bad Hout Hflag).
    + rewrite Hbad, !bind_raise. cbn [trace result fst snd].
      unfold point_cloud_run_frames. rewrite flat_map_app. simpl flat_map.
      rewrite app_nil_r. now rewrite display_app.
    + apply Hexist. apply in_or_app. right. now left.
Qed.

(** X14. In point-cloud mode and without an output directory, a run of
    [imaging_viewer] displays the frames of the files one after the
    other. When every input file exists and every non-empty record can
    be rendered, the run ends normally after one labelled frame per
    non-empty record; the first record that cannot be rendered ends the
    run with its exception, after the frames before it have been
    displayed and before any later record or file is read. *)
Theorem point_cloud_run_displays_frames
        (w : world ImageData) (args : Args) :
  output_dir args = None -> point_cloud_flag args = true ->
  (forall name, In name (radar_name args) ->
                file_exists w (input_path args name) = true) ->
  (Forall (fun name =>
             snd (point_cloud_frames ImageData
                    (points_at w (input_path args name))) = None)
     (radar_name args) ->
   main display_new display_call w args
   = (artist_setup None (point_cloud_run_frames w args (radar_name args))
        ++ map (fun item => SetData (displayed item))
             (point_cloud_run_frames w args (radar_name args)),
      Ok tt))
  /\ (forall before bad after e,
         radar_name args = before ++ bad :: after ->
         Forall (fun name =>
                   snd (point_cloud_frames ImageData
                          (points_at w (input_path args name))) = None)
           before ->
         snd (point_cloud_frames ImageData
                (points_at w (input_path args bad))) = Some e ->
         main display_new display_call w args
         = (artist_setup None
              (point_cloud_run_frames w args (before ++ [bad]))
              ++ map (fun item => SetData (displayed item))
                   (point_cloud_run_frames w args (before ++ [bad])),
            Raise e)).
Proof.
  intros Hout Hflag Hexist.
  destruct (@point_cloud_sessions w args (radar_name args) Hout Hflag Hexist
              None) as [Hgood Hbad].
  unfold main, input_output_paths. split.
  - intros Hends. rewrite (Hgood Hends), bind_ok. simpl.
    now rewrite app_nil_r.
  - intros before bad after e Hnames Hends He.
    now rewrite (Hbad before bad after e Hnames Hends He), bind_raise.
Qed.

End PointCloudRuns.

Lemma point_cloud_run_displays_frames_witness :
  ImagingViewer.main tt Samples.display Samples.one_point
    (Samples.args_of ["r"] None true)
  = (artist_setup None
       (point_cloud_run_frames Samples.one_point
          (Samples.args_of ["r"] None true) ["r"])
       ++ map (fun item => SetData (displayed item))
            (point_cloud_run_frames Samples.one_point
               (Samples.args_of ["r"] None true) ["r"]),
     Py.Ok tt).
Proof.
  refine (proj1 (@point_cloud_run_displays_frames unit unit tt
                   Samples.display Samples.one_point
                   (Samples.args_of ["r"] None true)
                   eq_refl eq_refl _) _).
  - intros name _. reflexivity.
  - constructor; [|constructor].
    change (points_at Samples.one_point
              (input_path (Samples.args_of ["r"] None true) "r"))
      with [Samples.point_record].
    destruct (@render_points_total (point_cloud Samples.point_record))
      as [img Hrender].
    { constructor; [|constructor].
      exists 320, 10. split; [vm_compute; reflexivity | reflexivity]. }
    now rewrite (@point_cloud_frames_cons_ok unit Samples.point_record []
                   img eq_refl Hrender).
Defined.

(** ** Empty point clouds in [point_cloud_viewer] *)

Section ViewerEmptyRecords.
Import Py Np PointCloudViewer.

Variable ImageData : Type.

Lemma plots_of_drop_empty (pcs : list RadarPointCloud) :
  plots_of (drop_empty pcs) = plots_of pcs.
Proof.
  induction pcs as [|pc pcs IH]; [reflexivity|].
  destruct (is_empty pc) eqn:Hpc.
  - rewrite (@drop_empty_cons_empty pc pcs Hpc).
    unfold plots_of at 2. simpl. now rewrite Hpc.
  - rewrite (@drop_empty_cons_nonempty pc pcs Hpc).
    unfold plots_of in *. simpl. rewrite Hpc. simpl. now rewrite IH.
Qed.

(** X15. In [point_cloud_viewer] a record with an empty point cloud is
    skipped without any plot: a whole run is, event for event, the run
    on the data set without its empty records. *)
Theorem viewer_skips_empty_point_clouds
        (w : world ImageData) (args : Args) :
  main (without_empty w) args = main w args.
Proof.
  unfold main. apply for_each_ext. intros video_writer0 [path output].
  unfold session. f_equal.
  rewrite !convert_point_cloud_stream_spec. simpl.
  now rewrite plots_of_drop_empty.
Qed.

End ViewerEmptyRecords.
